(** * autobisectjs: the bisection controller, its oracles, the merge-blame check

    A shallow embedding of [src/funfuzz/autobisectjs/autobisectjs.py].

    - Python integers are [Z]; Python strings are [string] (byte strings: the
      searches and splits below only involve ASCII needles, for which the
      UTF-8 encoding of a text behaves like the text itself).
    - The dictionary [labels] is a [gmap] from revisions to labels; the
      scratch directories of the external oracle live in a [gset] of paths.
    - Everything that talks to the outside (running [hg], building and
      running a shell, the interestingness test) is a fallible, stateful
      operation of an interface; the code is written in a small
      state-and-exception monad over it. *)

From Stdlib Require Import ZArith String Ascii List DecimalString.
From stdpp Require Import gmap strings list.

Open Scope string_scope.
Open Scope list_scope.
Open Scope Z_scope.

(** ** Python primitives used by the source *)

Module Py.

(** [str(n)] for an integer [n]. *)
Definition str (n : Z) : string := NilZero.string_of_int (Z.to_int n).

(** [s.find(sub)]: the lowest index at which [sub] occurs in [s], or [-1]. *)
Fixpoint find_from (i : Z) (s sub : string) : Z :=
  if String.prefix sub s then i
  else match s with
       | EmptyString => -1
       | String _ s' => find_from (i + 1) s' sub
       end.

Definition find (s sub : string) : Z := find_from 0 s sub.

(** [s.split(sep)] for a one-character separator. *)
Fixpoint split (sep : ascii) (s : string) : list string :=
  match s with
  | EmptyString => [EmptyString]
  | String c s' =>
      if Ascii.eqb c sep then EmptyString :: split sep s'
      else match split sep s' with
           | [] => [String c EmptyString]
           | w :: ws => String c w :: ws
           end
  end.

(** [l[:-1]]. *)
Definition drop_last {A} (l : list A) : list A := removelast l.

(** The line feed, as in ["\n"]. *)
Definition LF : ascii := Ascii.ascii_of_nat 10.

End Py.

(** ** Labels and options *)

(** The first component of a label: ["good"], ["bad"] or ["skip"]. *)
Inductive verdict : Type := good | bad | skip.

Definition verdict_eqb (a b : verdict) : bool :=
  match a, b with
  | good, good | bad, bad | skip, skip => true
  | _, _ => false
  end.

(** The text of a verdict, as it is passed to [hg bisect --<label>]. *)
Definition verdict_str (v : verdict) : string :=
  match v with good => "good" | bad => "bad" | skip => "skip" end.

(** A label is the pair [(verdict, reason)]. *)
Definition Label : Type := verdict * string.

(** What [m.group(1)] of the pattern [The first (good|bad) revision is:]
    can be: the blamed revision is the first good or the first bad one. *)
Inductive GoodOrBad : Type := first_good | first_bad.

Definition verdict_of (b : GoodOrBad) : verdict :=
  match b with first_good => good | first_bad => bad end.

(** [{"good": "bad", "bad": "good"}[blamedGoodOrBad]] *)
Definition opposite (b : GoodOrBad) : verdict :=
  match b with first_good => bad | first_bad => good end.

(** Revisions are the short hashes that [hg] prints. *)
Definition Rev : Type := string.

(** The fields of [options] that the controller and the oracles read. *)
Record Options : Type := {
  output : string;               (* -o, default "" *)
  watchExitCode : option Z;      (* -w, default None *)
  testInitialRevs : bool;        (* cleared by -k *)
  runtime_params : list string;  (* the split -p parameters *)
  runWithVg : bool               (* options.build_options.runWithVg *)
}.

(** ** The internal oracle *)

Module InternalOracle.

(** [w is not None and c == w] *)
Definition watched (w : option Z) (c : Z) : bool :=
  match w with Some x => c =? x | None => false end.

(** [w is not None and c != w] *)
Definition watched_other (w : option Z) (c : Z) : bool :=
  match w with Some x => negb (c =? x) | None => false end.

Definition is_None {A} (o : option A) : bool :=
  match o with Some _ => false | None => true end.

(** [s.find(sub) != -1] *)
Definition found (s sub : string) : bool := negb (Py.find s sub =? -1).

(** The body of [inner] after the shell has run: the chain of tests on
    the combined output and the exit code, in the order of the source. *)
Definition classify (options : Options) (stdoutStderr : string) (exitCode : Z)
  : Label :=
  let out := output options in
  let w := watchExitCode options in
  if found stdoutStderr out && negb (String.eqb out "") then
    (bad, "Specified-bad output")
  else if watched w exitCode then
    (bad, "Specified-bad exit code " +:+ Py.str exitCode)
  else if is_None w && (129 <=? exitCode) && (exitCode <=? 159) then
    (bad, "High exit code " +:+ Py.str exitCode)
  else if exitCode <? 0 then
    if watched w (128 - exitCode) then
      (bad, "Specified-bad exit code " +:+ Py.str exitCode
              +:+ " (after converting to signal)")
    else if negb (found stdoutStderr out) && negb (String.eqb out "") then
      (good, "Bad output, but not the specified one")
    else if watched_other w (128 - exitCode) then
      (good, "Negative exit code, but not the specified one")
    else
      (bad, "Negative exit code " +:+ Py.str exitCode)
  else if exitCode =? 0 then
    (good, "Exit code 0")
  else if ((exitCode =? 1) || (exitCode =? 2))
          && negb (String.eqb out "")
          && (found stdoutStderr "usage: js ["
              || found stdoutStderr "Error: Short option followed by junk"
              || found stdoutStderr "Error: Invalid long option:"
              || found stdoutStderr "Error: Invalid short option:") then
    (good, "Exit code 1 or 2 - js shell quits because it does not support a given CLI parameter")
  else if (3 <=? exitCode) && (exitCode <=? 6) then
    (good, "Acceptable exit code " +:+ Py.str exitCode)
  else if negb (is_None w) then
    (good, "Unknown exit code " +:+ Py.str exitCode
             +:+ ", but not the specified one")
  else
    (bad, "Unknown exit code " +:+ Py.str exitCode).

Section Inner.

(** [inspect_shell.testBinary(shell, args, useValgrind)] runs the shell
    and gives [(stdoutStderr, exitCode)]. *)
Variable testBinary : string -> list string -> bool -> string * Z.

(** [internalTestAndLabel(options)] returns the closure [inner]; here
    the closure is the partial application to [options]. *)
Definition internalTestAndLabel (options : Options)
    (shellFilename _hgHash : string) : Label :=
  let '(stdoutStderr, exitCode) :=
    testBinary shellFilename (runtime_params options) (runWithVg options) in
  classify options stdoutStderr exitCode.

End Inner.

End InternalOracle.

(** ** Exceptions, and the state-and-exception monad *)

Inductive Exn : Type :=
| CalledProcessError (args : list string) (* [subprocess.run(check=True)] *)
| Exception (msg : string)                (* [raise Exception(msg)] *)
| AssertionError
| IndexError
| KeyError
| OtherError (what : string).             (* raised by a collaborator *)

(** A computation over a state [S] that returns an [A] or raises. *)
Definition M (S A : Type) : Type := S -> (Exn + A) * S.

Definition ret {S A} (a : A) : M S A := fun s => (inr a, s).

Definition raise {S A} (e : Exn) : M S A := fun s => (inl e, s).

Definition bind {S A B} (m : M S A) (k : A -> M S B) : M S B :=
  fun s => match m s with
           | (inr a, s') => k a s'
           | (inl e, s') => (inl e, s')
           end.

Notation "'let*' x ':=' m 'in' k" := (bind m (fun x => k))
  (at level 10, x pattern, m at level 100, k at level 200).
Notation "m ';;' k" := (bind m (fun _ => k))
  (at level 100, k at level 200, right associativity).

(** [for x in l: acc = body(x, acc)], stopping at the first exception. *)
Fixpoint for_each {S A B} (body : A -> B -> M S B) (l : list A) (acc : B)
  : M S B :=
  match l with
  | [] => ret acc
  | x :: l' => let* acc' := body x acc in for_each body l' acc'
  end.

(** ** The external oracle *)

Module ExternalOracle.

(** The scratch space: the set of the directories that exist. *)
Abbreviation FS := (gset string).

(** The module that [rel_or_abs_import] loads: [interesting] is required,
    [init] is looked up with [hasattr]. Both may touch the scratch space
    and both may raise. *)
Record ConditionScript : Type := {
  init : option (list string -> M FS unit);
  interesting : list string -> string -> M FS bool
}.

(** [p] is [d] or lies below [d]. *)
Definition within (d p : string) : bool :=
  String.eqb p d || String.prefix (d +:+ "/") p.

(** [temp_dir.is_dir()] *)
Definition is_dir (d : string) : M FS bool :=
  fun fs => (inr (bool_decide (d ∈ fs)), fs).

(** Modelled from the spec: [sps.rm_tree_incl_readonly] is not under src/;
    it removes the directory tree at [d] (the spec: "remove the temporary
    directory"). *)
Definition rm_tree_incl_readonly (d : string) : M FS unit :=
  fun fs => (inr tt, filter (fun p => within d p = false) fs).

Section Inner.

(** The path that [tempfile.mkdtemp(prefix=...)] picks. *)
Variable mkdtemp_path : string -> FS -> string.

(** [rel_or_abs_import(name)] *)
Variable rel_or_abs_import : string -> ConditionScript.

(** [Path(tempfile.mkdtemp(prefix=p))]: the directory is created. *)
Definition mkdtemp (p : string) : M FS string :=
  fun fs => let d := mkdtemp_path p fs in (inr d, {[d]} ∪ fs).

(** The closure [inner] of [externalTestAndLabel], with the variables it
    captures. *)
Definition inner (options : Options) (conditionScript : ConditionScript)
    (conditionArgPrefix : list string) (shellFilename hgHash : string)
  : M FS Label :=
  let conditionArgs :=
    conditionArgPrefix ++ [shellFilename] ++ runtime_params options in
  let* temp_dir := mkdtemp ("abExtTestAndLabel-" +:+ hgHash) in
  let temp_prefix := temp_dir +:+ "/t" in
  match init conditionScript with
  | Some init_fn => init_fn conditionArgs
  | None => ret tt
  end ;;
  let* b := interesting conditionScript conditionArgs temp_prefix in
  let innerResult :=
    if b then (bad, "interesting") else (good, "not interesting") in
  let* d := is_dir temp_dir in
  (if d then rm_tree_incl_readonly temp_dir else ret tt) ;;
  ret innerResult.

(** [externalTestAndLabel(options, interestingness)]: [interestingness[0]]
    names the module, the rest is the argument prefix. *)
Definition externalTestAndLabel (options : Options)
    (interestingness : list string)
  : Exn + (string -> string -> M FS Label) :=
  match interestingness with
  | [] => inl IndexError
  | name :: conditionArgPrefix =>
      inr (inner options (rel_or_abs_import name) conditionArgPrefix)
  end.

End Inner.

End ExternalOracle.

(** ** The collaborators of the controller *)

(** What the controller calls and does not define: each operation works on
    an external state [E] (the repository, the working copy, the state of
    [hg bisect], the shell cache). *)
Class Collaborators (E : Type) : Type := {
  (** [testRev(rev)], the closure made by [compile_shell.makeTestRev]. *)
  testRev : Rev -> M E Label;
  (** [subprocess.run(hgPrefix + args, check=True, ...)], giving the decoded
      standard output. *)
  hg_run : list string -> M E string;
  (** [hg_helpers.destroyPyc(repo_dir)] *)
  destroyPyc_run : M E unit;
  (** [hg_helpers.isAncestor(repo_dir, a, b)]: [a] is an ancestor of [b]. The
      source reads it this way round: where [isAncestor(repo_dir, startRepo, p)]
      and [isAncestor(repo_dir, endRepo, p)] are both false it logs that [p]
      "is not a descendant of either" endpoint. A query on the history graph,
      which a session does not change. *)
  isAncestor : Rev -> Rev -> bool;
  (** [hg_helpers.findCommonAncestor(repo_dir, a, b)] *)
  findCommonAncestor : Rev -> Rev -> Rev;
  (** [hg_helpers.get_cset_hash_from_bisect_msg(line)]: the revision named
      in a line of [hg bisect], [None] when there is none. *)
  get_cset_hash_from_bisect_msg : string -> option Rev
}.

(** What the session does to the outside, in order. *)
Inductive Event : Type :=
| EvTestRev (rev : Rev)
| EvHg (args : list string)
| EvDestroyPyc.

(** The state of a session: the outside, the dictionary [labels], and the
    calls made so far. *)
Record World (E : Type) : Type := mkWorld {
  ext : E;
  labels : gmap Rev Label;
  trace : list Event
}.
Arguments mkWorld {E}.
Arguments ext {E}.
Arguments labels {E}.
Arguments trace {E}.

(** ** The controller *)

(** The outcome that [checkBlameParents] explains in its log. *)
Inductive Outcome : Type :=
| NotAMerge            (* exactly one parent: returns at once *)
| MissedCommonAncestor (ca : Rev) (label : Label)
                       (* "Bisect blamed the merge because our initial range
                          did not include one of the parents." *)
| WrongLabel           (* "Most likely, bisect's result was unhelpful because
                          one of the tested revisions was marked as "good" or
                          "bad" for the wrong reason." *)
| IntroducedByMerge.   (* "The bug was introduced by a merge (it was not
                          present on either parent)." *)

(** [(blamedGoodOrBad, blamedRev, currRev, startRepo, endRepo)], what
    [bisectLabel] returns. *)
Definition BisectResult : Type :=
  (option GoodOrBad * option Rev * option Rev * Rev * Rev)%type.

(** The variables of the loop of [findBlamedCset]; [options] is among them
    because the loop clears [options.testInitialRevs]. *)
Record Loop : Type := mkLoop {
  options : Options;
  currRev : option Rev;
  sRepo : Rev;
  eRepo : Rev;
  skipCount : Z;
  iterNum : Z;
  blamedGoodOrBad : option GoodOrBad;
  blamedRev : option Rev
}.

Definition set_testInitialRevs (b : bool) (o : Options) : Options :=
  {| output := output o; watchExitCode := watchExitCode o;
     testInitialRevs := b; runtime_params := runtime_params o;
     runWithVg := runWithVg o |}.

(** [re.compile(pre + "(good|bad)" + post).match(line)]: the pattern has to
    match at the start of [line]; the result is [m.group(1)]. *)
Definition match_good_or_bad (pre post line : string) : option GoodOrBad :=
  if String.prefix (pre +:+ "good" +:+ post) line then Some first_good
  else if String.prefix (pre +:+ "bad" +:+ post) line then Some first_bad
  else None.

Definition match_skipped (line : string) : option GoodOrBad :=
  match_good_or_bad "Due to skipped revisions, the first "
                    " revision could be any of:" line.

Definition match_first (line : string) : option GoodOrBad :=
  match_good_or_bad "The first " " revision is:" line.

(** [outputResult.split("\n")[0]] *)
Definition first_line (outputResult : string) : string :=
  hd "" (Py.split Py.LF outputResult).

(** The shapes of an answer of [hg bisect], told apart by the tests that
    [bisectLabel] makes on its first line, in their order. *)
Inductive Shape : Type :=
| Ambiguous                      (* "Due to skipped revisions, ..." *)
| FirstFound (which : GoodOrBad) (* "The first (good|bad) revision is:" *)
| NextRevision (rev : Rev)       (* a line that names a revision to test *)
| Unparsed.                      (* anything else *)

(** The arguments of [hg] that mark [rev] with [label]. *)
Definition mark_args (label : verdict) (rev : Rev) : list string :=
  ["bisect"; "-U"; "--" +:+ verdict_str label; rev].

(** A tolerated skip, as the outside sees it: the test of [rev], then the
    mark of [rev] as skipped. *)
Definition skip_round (rev : Rev) : list Event :=
  [EvTestRev rev; EvHg (mark_args skip rev)].

Definition is_test (ev : Event) : bool :=
  match ev with EvTestRev _ => true | _ => false end.

(** The number of tests in a list of calls. *)
Definition tests_in (evs : list Event) : nat :=
  length (List.filter is_test evs).

Section Controller.

Context {E : Type} {collab : Collaborators E}.

(** Calls a collaborator and notes the call. *)
Definition call {A} (ev : Event) (op : M E A) : M (World E) A :=
  fun w => let '(r, e') := op (ext w) in
           (r, mkWorld e' (labels w) (trace w ++ [ev])).

Definition run_testRev (rev : Rev) : M (World E) Label :=
  call (EvTestRev rev) (testRev rev).

Definition hg (args : list string) : M (World E) string :=
  call (EvHg args) (hg_run args).

Definition destroyPyc : M (World E) unit :=
  call EvDestroyPyc destroyPyc_run.

(** [labels.get(p)] *)
Definition labels_get (p : Rev) : M (World E) (option Label) :=
  fun w => (inr (labels w !! p), w).

(** [labels[p] = label] *)
Definition labels_set (p : Rev) (label : Label) : M (World E) unit :=
  fun w => (inr tt, mkWorld (ext w) (<[p := label]> (labels w)) (trace w)).

(** [labels[p]] *)
Definition labels_item (p : Rev) : M (World E) Label :=
  fun w => match labels w !! p with
           | Some label => (inr label, w)
           | None => (inl KeyError, w)
           end.

(** [l[i]] *)
Definition item {S A} (l : list A) (i : nat) : M S A :=
  match l !! i with
  | Some x => ret x
  | None => raise IndexError
  end.

(** The shape of an answer, by its first line. *)
Definition shape_of (outputResult : string) : Shape :=
  let line0 := first_line outputResult in
  match match_skipped line0 with
  | Some _ => Ambiguous
  | None =>
      match match_first line0 with
      | Some which => FirstFound which
      | None =>
          match get_cset_hash_from_bisect_msg line0 with
          | Some rev => NextRevision rev
          | None => Unparsed
          end
      end
  end.

(** [bisectLabel(hgPrefix, options, hgLabel, currRev, startRepo, endRepo)]:
    tell hg what we learned about the revision. The assertion that [hgLabel]
    is one of the three labels holds by its type; what is only logged is
    left out. *)
Definition bisectLabel (options : Options) (hgLabel : verdict)
    (currRev startRepo endRepo : Rev) : M (World E) BisectResult :=
  let* outputResult := hg (mark_args hgLabel currRev) in
  let outputLines := Py.split Py.LF outputResult in
  let* line0 := item outputLines 0 in
  match match_skipped line0 with
  | Some _ => ret (None, None, None, startRepo, endRepo)
  | None =>
  match match_first line0 with
  | Some blamedGoodOrBad =>
      let* line1 := item outputLines 1 in
      let blamedRev := get_cset_hash_from_bisect_msg line1 in
      ret (Some blamedGoodOrBad, blamedRev, None, startRepo, endRepo)
  | None =>
  if testInitialRevs options then ret (None, None, None, startRepo, endRepo)
  else
  match get_cset_hash_from_bisect_msg line0 with
  | None =>
      hg ["update"; "-C"; "default"] ;;
      destroyPyc ;;
      raise (Exception "hg did not suggest a changeset to test!")
  | Some currRev =>
      let start := startRepo in
      let end_ := endRepo in
      let '(start, end_) :=
        match hgLabel with
        | bad => (start, currRev)
        | good => (currRev, end_)
        | skip => (start, end_)
        end in
      ret (None, None, Some currRev, start, end_)
  end end end.

(** Lines 245 to 271: the rest of a round of the [while] loop of
    [findBlamedCset], once [rev] has been tested and [label] recorded. The
    boolean tells whether the round ended in [break]. *)
Definition round_after_test (rev : Rev) (label : Label) (st : Loop)
  : M (World E) (bool * Loop) :=
  let skipCount' :=
    if verdict_eqb (fst label) skip then skipCount st + 1 else skipCount st in
  if verdict_eqb (fst label) skip && (20 <? skipCount') then
    ret (true,
         mkLoop (options st) (currRev st) (sRepo st) (eRepo st) skipCount'
                (iterNum st) (blamedGoodOrBad st) (blamedRev st))
  else
    let* (blamedGoodOrBad', blamedRev', currRev', sRepo', eRepo') :=
      bisectLabel (options st) (fst label) rev (sRepo st) (eRepo st) in
    let* (options', currRev') :=
      if testInitialRevs (options st) then
        match currRev' with
        | None => ret (set_testInitialRevs false (options st), Some sRepo')
        | Some _ => raise AssertionError
        end
      else ret (options st, currRev') in
    ret (false,
         mkLoop options' currRev' sRepo' eRepo' skipCount' (iterNum st + 1)
                blamedGoodOrBad' blamedRev').

(** One round of the loop, for the candidate [rev]: lines 243 and 244, then
    the rest. *)
Definition loop_body (rev : Rev) (st : Loop) : M (World E) (bool * Loop) :=
  let* label := run_testRev rev in
  labels_set rev label ;;
  round_after_test rev label st.

(** [while currRev is not None: ...] with at most [fuel] rounds; [None] when
    the rounds are used up before the loop ends. *)
Fixpoint findBlamedCset_loop (fuel : nat) (st : Loop)
  : M (World E) (option Loop) :=
  match currRev st with
  | None => ret (Some st)
  | Some rev =>
      match fuel with
      | O => ret None
      | S fuel' =>
          let* (stop, st') := loop_body rev st in
          if stop then ret (Some st') else findBlamedCset_loop fuel' st'
      end
  end.

(** Lines 376 to 388 of the source: ensure we actually tested the parent. *)
Definition ensure_tested (startRepo endRepo p : Rev)
    (missedCommonAncestor : bool) : M (World E) bool :=
  let* known := labels_get p in
  match known with
  | Some _ => ret missedCommonAncestor
  | None =>
      let missedCommonAncestor :=
        if negb (isAncestor startRepo p) && negb (isAncestor endRepo p)
        then true else missedCommonAncestor in
      let* label := run_testRev p in
      labels_set p label ;;
      ret missedCommonAncestor
  end.

(** Lines 390 to 398: check that the parent's label is the opposite of the
    blamed merge's label. *)
Definition check_label (blamedGoodOrBad : GoodOrBad) (p : Rev)
    (bisectLied : bool) : M (World E) bool :=
  let* label := labels_item p in
  if verdict_eqb (fst label) skip then ret bisectLied
  else if verdict_eqb (fst label) (verdict_of blamedGoodOrBad) then ret true
  else if verdict_eqb (fst label) (opposite blamedGoodOrBad) then
         ret bisectLied
  else raise AssertionError.

(** The body of [for p in parents], on the pair
    [(bisectLied, missedCommonAncestor)]. *)
Definition parent_body (blamedGoodOrBad : GoodOrBad) (startRepo endRepo : Rev)
    (p : Rev) (flags : bool * bool) : M (World E) (bool * bool) :=
  let* missedCommonAncestor := ensure_tested startRepo endRepo p (snd flags) in
  let* bisectLied := check_label blamedGoodOrBad p (fst flags) in
  ret (bisectLied, missedCommonAncestor).

(** Lines 400 to 420: explain why bisect blamed the merge. *)
Definition explain (parents : list Rev) (flags : bool * bool)
  : M (World E) Outcome :=
  if fst flags then
    if snd flags then
      let* p0 := item parents 0 in
      let* p1 := item parents 1 in
      let ca := findCommonAncestor p0 p1 in
      let* label := run_testRev ca in
      ret (MissedCommonAncestor ca label)
    else ret WrongLabel
  else ret IntroducedByMerge.

(** The arguments of [hg] that list the parents of [rev]. *)
Definition parent_args (rev : Rev) : list string :=
  ["parent"; "--template={node|short},"; "-r"; rev].

(** [hg_parent_output.split(",")[:-1]] *)
Definition parents_of_output (hg_parent_output : string) : list Rev :=
  Py.drop_last (Py.split "," hg_parent_output).

(** [checkBlameParents(repo_dir, blamedRev, blamedGoodOrBad, labels, testRev,
    startRepo, endRepo)]: if bisect blamed a merge, try to figure out why.
    The dictionary [labels] is the one of the world. *)
Definition checkBlameParents (blamedRev : Rev) (blamedGoodOrBad : GoodOrBad)
    (startRepo endRepo : Rev) : M (World E) Outcome :=
  let* hg_parent_output := hg (parent_args blamedRev) in
  let parents := parents_of_output hg_parent_output in
  if (length parents =? 1)%nat then ret NotAMerge
  else
    let* flags :=
      for_each (parent_body blamedGoodOrBad startRepo endRepo) parents
               (false, false) in
    explain parents flags.

(** Lines 273 to 285: what [findBlamedCset] does once the loop is over. *)
Definition findBlamedCset_finish (realStartRepo realEndRepo : Rev) (st : Loop)
  : M (World E) unit :=
  match blamedRev st with
  | Some rev =>
      match blamedGoodOrBad st with
      | Some gb =>
          checkBlameParents rev gb realStartRepo realEndRepo ;; ret tt
      | None => raise (OtherError "NameError")
      end
  | None => ret tt
  end ;;
  hg ["bisect"; "-U"; "-r"] ;;
  hg ["update"; "-C"; "-r"; "default"] ;;
  destroyPyc.

(** The loop and what follows it, from the state that lines 195 to 239 set
    up. [None] when [fuel] rounds were not enough. *)
Definition findBlamedCset_from (fuel : nat) (realStartRepo realEndRepo : Rev)
    (st : Loop) : M (World E) (option unit) :=
  let* r := findBlamedCset_loop fuel st in
  match r with
  | None => ret None
  | Some st' =>
      findBlamedCset_finish realStartRepo realEndRepo st' ;; ret (Some tt)
  end.

(** A computation that makes no test, as the list of calls shows. *)
Definition quiet {A} (m : M (World E) A) : Prop :=
  forall w r w', m w = (r, w') ->
  exists new, trace w' = trace w ++ new /\ tests_in new = 0%nat.

(** The oracle says [skip] for every revision, whatever the state of the
    outside. *)
Definition always_skips : Prop :=
  forall rev e, exists reason e', testRev rev e = (inr (skip, reason), e').

(** [hg bisect] answers every mark with a revision to test next. *)
Definition always_proposes : Prop :=
  forall label rev e, exists out e' next,
    hg_run (mark_args label rev) e = (inr out, e') /\
    shape_of out = NextRevision next.

End Controller.

(** The state in which the loop starts: [first] is the revision to test
    first, which is [eRepo] when [options.testInitialRevs] is set and the
    revision that [hg] suggests for the assumed endpoints otherwise. *)
Definition loop_start (options : Options) (sRepo eRepo : Rev)
    (first : option Rev) : Loop :=
  mkLoop options
         (if testInitialRevs options then Some eRepo else first)
         sRepo eRepo 0
         (if testInitialRevs options then 1 - 2 else 1)
         None None.

(** ** Sanitizing a changeset message *)

(** [c in s] for a character [c]. *)
Fixpoint has (c : ascii) (s : string) : bool :=
  match s with
  | EmptyString => false
  | String d s' => Ascii.eqb d c || has c s'
  end.

(** The space, and ["\n"] as a string. *)
Definition SP : ascii := Ascii.ascii_of_nat 32.
Definition NL : string := String Py.LF "".

(** A word: a text that is not empty and holds no space. *)
Definition word (x : string) : Prop := x <> "" /\ has SP x = false.

(** [l[-1]] of a list of strings that is known not to be empty. *)
Definition last_part (l : list string) : string := List.last l "".

(** The body of the loop of [sanitizeCsetMsg]: a line that has ["<"], ["@"]
    and [">"] loses its last word; otherwise a [changeset:] line of a
    mozilla-central repository is turned into a link; any other line stays. *)
Definition sanitize_line (repo line : string) : string :=
  if InternalOracle.found line "<" && InternalOracle.found line "@"
     && InternalOracle.found line ">" then
    String.concat " " (Py.drop_last (Py.split SP line))
  else if String.prefix "changeset:" line
          && InternalOracle.found repo "mozilla-central" then
    "changeset:   https://hg.mozilla.org/mozilla-central/rev/"
      +:+ last_part (Py.split ":" line)
  else line.

(** [sanitizeCsetMsg(msg, repo)]: sanitize changeset messages, removing
    email addresses. [repo] is [str(repo)]. *)
Definition sanitizeCsetMsg (msg repo : string) : string :=
  let msgList := Py.split Py.LF msg in
  let sanitizedMsgList := map (sanitize_line repo) msgList in
  String.concat NL sanitizedMsgList.

(** ** The start of a session *)

Module Session.

(** The fields of [options] that [findBlamedCset] reads before its loop,
    beside those of [Options]. *)
Record SessionOptions : Type := {
  base : Options;
  resetRepoFirst : bool;  (* --resetToTipFirst *)
  skipRevs : string;      (* the known broken ranges, joined *)
  startRepo : string;     (* -s, or the earliest revision known to work *)
  endRepo : string        (* -e, default "default" *)
}.

Section Setup.

Context {E : Type} {collab : Collaborators E}.

(** [hg_helpers.get_repo_hash_and_id(repo_dir, repo_rev=name)[0]] *)
Variable get_repo_hash : string -> M E Rev.

(** Calls a collaborator that is not among the calls the session notes. *)
Definition query {A} (op : M E A) : M (World E) A :=
  fun w => let '(r, e') := op (ext w) in (r, mkWorld e' (labels w) (trace w)).

(** [labels = {}] *)
Definition labels_new : M (World E) unit :=
  fun w => (inr tt, mkWorld (ext w) ∅ (trace w)).

(** Lines 231 and 232: [hg_helpers.get_cset_hash_from_bisect_msg] is handed
    [mid_bisect_output.split("\n")], the list of the lines of the answer,
    where lines 469 and 478 hand it one line. It is the helper of the class
    above, whose code is not under src/: it matches a pattern against the
    text that it is given, and the match of a pattern against a list raises
    [TypeError] in Python, whatever the lines are. *)
Definition get_cset_hash_from_bisect_msg_on_lines (lines : list string)
  : M (World E) (option Rev) :=
  raise (OtherError "TypeError").

(** Lines 195 to 239 of [findBlamedCset]: resolve the endpoints, reset the
    working copy if asked, reset [hg bisect] and tell it the known broken
    ranges, then either start with the end revision or mark the endpoints
    as assumed and read the first candidate from the answer of [hg]. The
    result is [(realStartRepo, realEndRepo)] and the variables of the
    loop. *)
Definition findBlamedCset_setup (so : SessionOptions)
  : M (World E) (Rev * Rev * Loop) :=
  let* sRepo := query (get_repo_hash (startRepo so)) in
  let* eRepo := query (get_repo_hash (endRepo so)) in
  (if resetRepoFirst so then
     hg ["update"; "-C"; "default"] ;;
     hg ["purge"; "--all"] ;;
     ret tt
   else ret tt) ;;
  hg ["bisect"; "-r"] ;;
  (if negb (String.eqb (skipRevs so) "") then
     hg ["bisect"; "--skip"; skipRevs so] ;; ret tt
   else ret tt) ;;
  labels_new ;;
  let* currRev :=
    if testInitialRevs (base so) then ret (Some eRepo)
    else
      labels_set sRepo (good, "assumed start rev is good") ;;
      labels_set eRepo (bad, "assumed end rev is bad") ;;
      hg ["bisect"; "-U"; "-g"; sRepo] ;;
      let* mid_bisect_output := hg ["bisect"; "-U"; "-b"; eRepo] in
      get_cset_hash_from_bisect_msg_on_lines
        (Py.split Py.LF mid_bisect_output) in
  let iterNum := if testInitialRevs (base so) then 1 - 2 else 1 in
  ret (sRepo, eRepo, mkLoop (base so) currRev sRepo eRepo 0 iterNum None None).

(** [findBlamedCset(options, repo_dir, testRev)], with at most [fuel] rounds
    of its loop. *)
Definition findBlamedCset (fuel : nat) (so : SessionOptions)
  : M (World E) (option unit) :=
  let* (realStartRepo, realEndRepo, st) := findBlamedCset_setup so in
  findBlamedCset_from fuel realStartRepo realEndRepo st.

End Setup.

End Session.

(** ** Reading the options: [parseOpts] after [parser.parse_args()] *)

(** The options that the oracles and the controller read, from their
    parts. *)
Definition make_options (output : string) (watchExitCode : option Z)
    (testInitialRevs : bool) (runtime_params : list string) (runWithVg : bool)
  : Options :=
  {| output := output; watchExitCode := watchExitCode;
     testInitialRevs := testInitialRevs; runtime_params := runtime_params;
     runWithVg := runWithVg |}.


Module ParseOpts.

(** The values that [parser.parse_args()] gives: one field per option of
    the parser, with the defaults of [parser.set_defaults]. *)
Record Values : Type := {
  resetRepoFirst : bool;
  startRepo : option string;
  endRepo : string;
  testInitialRevs : bool;
  output : string;
  watchExitCode : option Z;
  useInterestingnessTests : bool;
  parameters : string;
  compilationFailedLabel : string;
  build_options : string;
  useTreeherderBinaries : bool;
  nameOfTreeherderBranch : string
}.

(** How [parseOpts] can end without returning: [sys.exit(code)], which is
    also how [parser.error] ends (with code 2), or an exception. *)
Inductive Stop : Type :=
| Exit (code : Z)
| Raise (exn : Exn).

Definition Outcome (A : Type) : Type := (Stop + A)%type.

Definition and_then {A B} (m : Outcome A) (k : A -> Outcome B) : Outcome B :=
  match m with
  | inl stop => inl stop
  | inr a => k a
  end.

Notation "'try' x ':=' m 'in' k" := (and_then m (fun x => k))
  (at level 10, x pattern, m at level 100, k at level 200).

(** A collaborator that returns or raises. *)
Definition lift {A} (r : Exn + A) : Outcome A :=
  match r with
  | inl exn => inl (Raise exn)
  | inr a => inr a
  end.

(** [[x for x in parameters.split(" ") if x]] *)
Definition split_parameters (parameters : string) : list string :=
  List.filter (fun x => negb (String.eqb x "")) (Py.split SP parameters).

(** [l[-1]] *)
Definition last_item {A} (l : list A) : Outcome A :=
  match List.last (map Some l) None with
  | Some x => inr x
  | None => inl (Raise IndexError)
  end.

(** [a[8:]] *)
Fixpoint drop_chars (n : nat) (a : string) : string :=
  match n, a with
  | S n', String _ a' => drop_chars n' a'
  | _, _ => a
  end.

(** Lines 146 to 148: the flags of the last argument that starts with
    [--flags=], if there is one. *)
Fixpoint flags_of (args : list string) (extraFlags : list string)
  : list string :=
  match args with
  | [] => extraFlags
  | a :: args' =>
      flags_of args'
        (if String.prefix "--flags=" a then Py.split SP (drop_chars 8 a)
         else extraFlags)
  end.

(** [options.testAndLabel]: the closure of the internal or of the external
    oracle. *)
Inductive TestAndLabel : Type :=
| Internal (inner : string -> string -> Label)
| External (inner : string -> string -> M (gset string) Label).

Section ParseOpts.

(** The parsed build options, [options.build_options] after line 126. *)
Variable BuildOptions : Type.

(** [build_options.parse_shell_opts(text)] *)
Variable parse_shell_opts : string -> Exn + BuildOptions.
(** [kbew.known_broken_ranges(build_options)] *)
Variable known_broken_ranges : BuildOptions -> Exn + list string.
(** [Path(name).expanduser().is_file()] *)
Variable is_file : string -> bool.
(** [kbew.earliest_known_working_rev(build_options, flags, skipRevs)] *)
Variable earliest_known_working_rev :
  BuildOptions -> list string -> string -> Exn + string.
(** [hg_helpers.get_repo_hash_and_id(build_options.repo_dir, repo_rev=q)[0]] *)
Variable get_repo_hash : BuildOptions -> string -> Exn + string.
(** [build_options.runWithVg] *)
Variable runWithVg_of : BuildOptions -> bool.
(** What the two oracles call. *)
Variable testBinary : string -> list string -> bool -> string * Z.
Variable mkdtemp_path : string -> gset string -> string.
Variable rel_or_abs_import : string -> ExternalOracle.ConditionScript.

(** What [parseOpts] returns: the values as read, and the attributes that
    it sets or replaces. *)
Record Parsed : Type := {
  values : Values;
  parsed_build_options : BuildOptions;  (* options.build_options *)
  skipRevs : string;
  runtime_params : list string;
  testAndLabel : TestAndLabel;
  resolved_startRepo : string           (* options.startRepo *)
}.

(** The options as the oracles read them. *)
Definition oracle_options (v : Values) (bo : BuildOptions)
    (params : list string) : Options :=
  make_options (output v) (watchExitCode v) (testInitialRevs v) params
               (runWithVg_of bo).

Definition is_label (l : string) : bool :=
  String.eqb l "bad" || String.eqb l "good" || String.eqb l "skip".

(** Lines 131 to 136: first check that the testcase is present. The log
    line before [raise OSError] reads [options.paramList], an attribute that
    nothing sets: it is the [AttributeError] of that read that is raised. *)
Definition check_testcase (v : Values) (params : list string) : Outcome unit :=
  if negb (InternalOracle.found (parameters v) "-e 42") then
    try testcase := last_item params in
    if negb (is_file testcase) then inl (Raise (OtherError "AttributeError"))
    else inr tt
  else inr tt.

(** Lines 142 to 153: choose the oracle. *)
Definition choose_oracle (v : Values) (bo : BuildOptions)
    (params args : list string) : Outcome (list string * TestAndLabel) :=
  if useInterestingnessTests v then
    if (length args <? 1)%nat then inl (Exit 2)
    else
      let extraFlags := flags_of args [] in
      try inner :=
        lift (ExternalOracle.externalTestAndLabel mkdtemp_path
                rel_or_abs_import (oracle_options v bo params) args) in
      inr (extraFlags, External inner)
  else if (1 <=? length args)%nat then inl (Exit 2)
  else
    inr ([], Internal (InternalOracle.internalTestAndLabel testBinary
                         (oracle_options v bo params))).

(** [parseOpts()], from the values and the arguments that
    [parser.parse_args()] gave. *)
Definition parseOpts (v : Values) (args : list string) : Outcome Parsed :=
  if useTreeherderBinaries v then inl (Exit 0)
  else
    try bo := lift (parse_shell_opts (build_options v)) in
    try ranges := lift (known_broken_ranges bo) in
    let skipRevs := String.concat " + " ranges in
    let params := split_parameters (parameters v) in
    try _ := check_testcase v params in
    if negb (is_label (compilationFailedLabel v)) then
      inl (Raise AssertionError)
    else
      try (extraFlags, oracle) := choose_oracle v bo params args in
      try earliestKnownQuery :=
        lift (earliest_known_working_rev bo (params ++ extraFlags) skipRevs) in
      try earliestKnown :=
        (if negb (useTreeherderBinaries v)
         then lift (get_repo_hash bo earliestKnownQuery)
         else inr "") in
      let start :=
        match startRepo v with
        | None => if useTreeherderBinaries v then "default" else earliestKnown
        | Some given => given
        end in
      if negb (String.eqb (nameOfTreeherderBranch v) "mozilla-inbound")
         && negb (useTreeherderBinaries v) then
        inl (Raise (Exception
          "Setting the name of branches only works for treeherder shell bisection."))
      else
        inr {| values := v; parsed_build_options := bo; skipRevs := skipRevs;
               runtime_params := params; testAndLabel := oracle;
               resolved_startRepo := start |}.

End ParseOpts.

End ParseOpts.

(** ** Concrete collaborators, for the examples *)

Module Fixtures.

Definition plain_options : Options :=
  {| output := ""; watchExitCode := None; testInitialRevs := false;
     runtime_params := ["-e"; "42"]; runWithVg := false |}.

(** A stand-in for the pattern [(^|.* )(\d+):(\w{12}).*] of the helper that
    finds the hash in a line of [hg bisect]: a word
    [<number>:<12 characters>]. *)
Definition hash_of_word (w : string) : option Rev :=
  match Py.split ":" w with
  | [n; h] =>
      if negb (String.eqb n "") && (String.length h =? 12)%nat then Some h
      else None
  | _ => None
  end.

Fixpoint first_hash (ws : list string) : option Rev :=
  match ws with
  | [] => None
  | w :: ws' =>
      match hash_of_word w with Some h => Some h | None => first_hash ws' end
  end.

Definition hash_of_line (line : string) : option Rev :=
  first_hash (Py.split " " line).

(** A history with a merge [m0] of [p1] and [p2]:
<<
      c0 --- s0 --- p1 --- m0 --- e0
        \                 /
         `----- p2 ------'
>>
    The regression came in with [p2]; the session runs from [s0] to [e0]. *)
Definition parents_in_history (r : Rev) : list Rev :=
  if String.eqb r "s0" then ["c0"]
  else if String.eqb r "p1" then ["s0"]
  else if String.eqb r "p2" then ["c0"]
  else if String.eqb r "m0" then ["p1"; "p2"]
  else if String.eqb r "e0" then ["m0"]
  else [].

Fixpoint is_ancestor_upto (depth : nat) (a b : Rev) : bool :=
  String.eqb a b ||
  match depth with
  | O => false
  | S d => existsb (is_ancestor_upto d a) (parents_in_history b)
  end.

Definition label_in_history (r : Rev) : Label :=
  if String.eqb r "p2" || String.eqb r "m0" || String.eqb r "e0"
  then (bad, "Unknown exit code 7") else (good, "Exit code 0").

(** [hg parent --template={node|short},] prints each parent followed by a
    comma. *)
Definition parent_output (r : Rev) : string :=
  String.concat "" (map (fun p => p +:+ ",") (parents_in_history r)).

Definition is_parent_query (args : list string) : option Rev :=
  match args with
  | ["parent"; _; "-r"; r] => Some r
  | _ => None
  end.

(** The collaborators over that history; [hg bisect] answers nothing, as it
    does while one endpoint is still unmarked. *)
Definition merge_history : Collaborators unit :=
  {| testRev := fun r => ret (label_in_history r);
     hg_run := fun args =>
       match is_parent_query args with
       | Some r => ret (parent_output r)
       | None => ret ""
       end;
     destroyPyc_run := ret tt;
     isAncestor := is_ancestor_upto 6;
     findCommonAncestor := fun _ _ => "c0";
     get_cset_hash_from_bisect_msg := hash_of_line |}.

(** The same history when the merge itself brought the regression in: both
    parents are free of it, and [p1] does not build. *)
Definition label_in_merge_bug (r : Rev) : Label :=
  if String.eqb r "m0" || String.eqb r "e0" then (bad, "Unknown exit code 7")
  else if String.eqb r "p1" then (skip, "compilation failed")
  else (good, "Exit code 0").

Definition merge_bug : Collaborators unit :=
  {| testRev := fun r => ret (label_in_merge_bug r);
     hg_run := fun args =>
       match is_parent_query args with
       | Some r => ret (parent_output r)
       | None => ret ""
       end;
     destroyPyc_run := ret tt;
     isAncestor := is_ancestor_upto 6;
     findCommonAncestor := fun _ _ => "c0";
     get_cset_hash_from_bisect_msg := hash_of_line |}.

(** The labels when the session has blamed [m0]: [p2] was never tested. *)
Definition labels_at_blame : gmap Rev Label :=
  <["s0" := (good, "Exit code 0")]>
  (<["e0" := (bad, "Unknown exit code 7")]>
  (<["p1" := (good, "Exit code 0")]>
  (<["m0" := (bad, "Unknown exit code 7")]> ∅))).

Definition world_at_blame : World unit := mkWorld tt labels_at_blame [].

(** Collaborators for a range in which nothing builds: every test says
    [skip] and [hg bisect] always names another revision to test. *)
Definition skip_line : string :=
  "Testing changeset 41831:4f4c01fb42c3 (900 changesets remaining, ~9 tests)".

Definition nothing_builds : Collaborators unit :=
  {| testRev := fun _ => ret (skip, "compilation failed");
     hg_run := fun _ => ret skip_line;
     destroyPyc_run := ret tt;
     isAncestor := fun _ _ => false;
     findCommonAncestor := fun a _ => a;
     get_cset_hash_from_bisect_msg := hash_of_line |}.

(** As [nothing_builds], but [hg bisect] gives up at the first mark. *)
Definition skipped_line : string :=
  "Due to skipped revisions, the first bad revision could be any of:".

Definition nothing_left : Collaborators unit :=
  {| testRev := fun _ => ret (skip, "compilation failed");
     hg_run := fun _ => ret skipped_line;
     destroyPyc_run := ret tt;
     isAncestor := fun _ _ => false;
     findCommonAncestor := fun a _ => a;
     get_cset_hash_from_bisect_msg := hash_of_line |}.

Definition empty_world : World unit := mkWorld tt ∅ [].

(** An interestingness test that fails, and one that answers. *)
Definition failing_script : ExternalOracle.ConditionScript :=
  {| ExternalOracle.init := None;
     ExternalOracle.interesting := fun _ _ => raise (OtherError "OSError") |}.

Definition answering_script (b : bool) : ExternalOracle.ConditionScript :=
  {| ExternalOracle.init := Some (fun _ => ret tt);
     ExternalOracle.interesting := fun _ _ => ret b |}.

Definition tmp_path (p : string) (_ : gset string) : string := "/tmp/" +:+ p.

(** A shell that dies of SIGSEGV, and one that rejects a flag. *)
Definition crashing_shell (_ : string) (_ : list string) (_ : bool)
  : string * Z := ("Segmentation fault", -11).

Definition rejecting_shell (_ : string) (_ : list string) (_ : bool)
  : string * Z := ("usage: js [options] [[script] scriptArgs*]", 1).

Definition assertion_options : Options :=
  {| output := "Assertion failure"; watchExitCode := None;
     testInitialRevs := true; runtime_params := ["--no-such-flag"; "t.js"];
     runWithVg := false |}.

(** The default session: the endpoints are tested first. *)
Definition default_options : Options := set_testInitialRevs true plain_options.

End Fixtures.

(** ** Further concrete inputs *)

Module Examples.

Import Fixtures.

(** Lines of a changeset as [hg log] prints them. *)
Definition author_line : string :=
  "user:        Jane Doe <jane@example.org>".

Definition changeset_line : string := "changeset:   41831:4f4c01fb42c3".

Definition summary_msg : string :=
  changeset_line +:+ NL +:+ "summary:     Bug 1 - fix the frobnicator".

(** Options that watch for the exit code of a shell killed by SIGSEGV. *)
Definition watching_options : Options :=
  {| output := ""; watchExitCode := Some 139; testInitialRevs := true;
     runtime_params := ["-e"; "42"]; runWithVg := false |}.

(** Collaborators at the end of a bisection: [hg bisect] answers that the
    first bad revision is found. *)
Definition found_answer : string :=
  "The first bad revision is:" +:+ NL +:+ changeset_line +:+ NL
  +:+ author_line.

Definition bisection_done : Collaborators unit :=
  {| testRev := fun _ => ret (bad, "Unknown exit code 7");
     hg_run := fun _ => ret found_answer;
     destroyPyc_run := ret tt;
     isAncestor := fun _ _ => true;
     findCommonAncestor := fun a _ => a;
     get_cset_hash_from_bisect_msg := hash_of_line |}.

(** Collaborators with a build that fails with an exception. *)
Definition broken_build : Collaborators unit :=
  {| testRev := fun _ => raise (OtherError "CalledProcessError");
     hg_run := fun _ => ret skip_line;
     destroyPyc_run := ret tt;
     isAncestor := fun _ _ => false;
     findCommonAncestor := fun a _ => a;
     get_cset_hash_from_bisect_msg := hash_of_line |}.

(** The helper that resolves the names of the endpoints: names are their
    own hashes. *)
Definition resolve (name : string) : M unit Rev := ret name.

(** A session that trusts its endpoints ([-k]), and the default one. *)
Definition trusting_session : Session.SessionOptions :=
  {| Session.base := plain_options; Session.resetRepoFirst := true;
     Session.skipRevs := "4f4c01fb42c0::4f4c01fb42c1";
     Session.startRepo := "s0"; Session.endRepo := "e0" |}.


(** The values of the parser when no option is given, and with [-p] or [-N]
    given. *)
Definition default_values : ParseOpts.Values :=
  {| ParseOpts.resetRepoFirst := false;
     ParseOpts.startRepo := None;
     ParseOpts.endRepo := "default";
     ParseOpts.testInitialRevs := true;
     ParseOpts.output := "";
     ParseOpts.watchExitCode := None;
     ParseOpts.useInterestingnessTests := false;
     ParseOpts.parameters := "-e 42";
     ParseOpts.compilationFailedLabel := "skip";
     ParseOpts.build_options := "";
     ParseOpts.useTreeherderBinaries := false;
     ParseOpts.nameOfTreeherderBranch := "mozilla-inbound" |}.

Definition with_parameters (p : string) (v : ParseOpts.Values)
  : ParseOpts.Values :=
  {| ParseOpts.resetRepoFirst := ParseOpts.resetRepoFirst v;
     ParseOpts.startRepo := ParseOpts.startRepo v;
     ParseOpts.endRepo := ParseOpts.endRepo v;
     ParseOpts.testInitialRevs := ParseOpts.testInitialRevs v;
     ParseOpts.output := ParseOpts.output v;
     ParseOpts.watchExitCode := ParseOpts.watchExitCode v;
     ParseOpts.useInterestingnessTests := ParseOpts.useInterestingnessTests v;
     ParseOpts.parameters := p;
     ParseOpts.compilationFailedLabel := ParseOpts.compilationFailedLabel v;
     ParseOpts.build_options := ParseOpts.build_options v;
     ParseOpts.useTreeherderBinaries := ParseOpts.useTreeherderBinaries v;
     ParseOpts.nameOfTreeherderBranch := ParseOpts.nameOfTreeherderBranch v |}.

Definition with_branch (name : string) (v : ParseOpts.Values)
  : ParseOpts.Values :=
  {| ParseOpts.resetRepoFirst := ParseOpts.resetRepoFirst v;
     ParseOpts.startRepo := ParseOpts.startRepo v;
     ParseOpts.endRepo := ParseOpts.endRepo v;
     ParseOpts.testInitialRevs := ParseOpts.testInitialRevs v;
     ParseOpts.output := ParseOpts.output v;
     ParseOpts.watchExitCode := ParseOpts.watchExitCode v;
     ParseOpts.useInterestingnessTests := ParseOpts.useInterestingnessTests v;
     ParseOpts.parameters := ParseOpts.parameters v;
     ParseOpts.compilationFailedLabel := ParseOpts.compilationFailedLabel v;
     ParseOpts.build_options := ParseOpts.build_options v;
     ParseOpts.useTreeherderBinaries := ParseOpts.useTreeherderBinaries v;
     ParseOpts.nameOfTreeherderBranch := name |}.

(** [parseOpts] over collaborators that answer: the build options are read
    as given, one range is known broken, the only file is [testcase.js], and
    the earliest revision known to work is [c0]. *)
Definition parse (v : ParseOpts.Values) (args : list string)
  : ParseOpts.Outcome (ParseOpts.Parsed string) :=
  ParseOpts.parseOpts string
    (fun text => inr text)
    (fun _ => inr ["4f4c01fb42c0::4f4c01fb42c1"])
    (fun name => String.eqb name "testcase.js")
    (fun _ _ _ => inr "c0")
    (fun _ query => inr query)
    (fun _ => false)
    crashing_shell tmp_path (fun _ => answering_script true)
    v args.

End Examples.

(** * Properties *)

(** ** The Python primitives *)

Example str_examples :
  Py.str (-11) = "-11" /\ Py.str 0 = "0" /\ Py.str 137 = "137".
Proof. repeat split. Qed.

Example find_examples :
  Py.find "abc" "" = 0 /\ Py.find "" "" = 0 /\ Py.find "abcbc" "bc" = 1 /\
  Py.find "abc" "d" = -1 /\ Py.find "" "usage" = -1.
Proof. repeat split. Qed.

Example split_examples :
  Py.split "," "p1,p2," = ["p1"; "p2"; ""] /\
  Py.split "," "" = [""] /\
  Py.drop_last (Py.split "," "p1,") = ["p1"] /\
  Py.drop_last (Py.split "," "") = [].
Proof. repeat split. Qed.

Lemma append_cons c a b : String c a +:+ b = String c (a +:+ b).
Proof. reflexivity. Qed.

Lemma prefix_spec a b :
  String.prefix a b = true <-> exists post, b = a +:+ post.
Proof.
  revert b. induction a as [| c a IH]; intros b; destruct b as [| d b]; cbn.
  - split; [intros _; exists ""; reflexivity | reflexivity].
  - split; [intros _; exists (String d b); reflexivity | reflexivity].
  - split; [discriminate | intros [post H]; discriminate].
  - destruct (ascii_dec c d) as [-> | Hne].
    + rewrite IH. split; intros [post H]; exists post;
        rewrite append_cons in *; congruence.
    + split; [discriminate |].
      intros [post H]. rewrite append_cons in H. congruence.
Qed.

(** [find] answers [-1] exactly when [sub] does not occur in [s]. *)
Lemma find_from_occurs sub s : forall i,
  0 <= i ->
  (Py.find_from i s sub <> -1 <-> exists pre post, s = pre +:+ sub +:+ post).
Proof.
  induction s as [| c s IH]; intros i Hi; cbn [Py.find_from].
  - destruct (String.prefix sub "") eqn:Hpre.
    + split; [| lia]. intros _. apply prefix_spec in Hpre as [post ->].
      exists "", post. reflexivity.
    + split; [congruence |]. intros (pre & post & H).
      destruct pre; [| discriminate].
      change ("" +:+ sub +:+ post) with (sub +:+ post) in H.
      assert (String.prefix sub "" = true)
        by (apply prefix_spec; exists post; exact H).
      congruence.
  - destruct (String.prefix sub (String c s)) eqn:Hpre.
    + split; [| lia]. intros _. apply prefix_spec in Hpre as [post ->].
      exists "", post. reflexivity.
    + rewrite IH by lia. split.
      * intros (pre & post & ->). exists (String c pre), post. reflexivity.
      * intros (pre & post & H). destruct pre as [| d pre].
        -- change ("" +:+ sub +:+ post) with (sub +:+ post) in H.
           assert (String.prefix sub (String c s) = true)
             by (apply prefix_spec; exists post; exact H).
           congruence.
        -- rewrite append_cons in H. inversion H; subst.
           exists pre, post. reflexivity.
Qed.

Lemma find_occurs s sub :
  Py.find s sub <> -1 <-> exists pre post, s = pre +:+ sub +:+ post.
Proof. apply find_from_occurs. lia. Qed.

(** ** The monad *)

Lemma bind_inv {S A B} (m : M S A) (k : A -> M S B) s r s' :
  bind m k s = (r, s') ->
  (exists a s1, m s = (inr a, s1) /\ k a s1 = (r, s')) \/
  (exists e, m s = (inl e, s') /\ r = inl e).
Proof.
  unfold bind. destruct (m s) as [[e | a] s1]; intros H.
  - right. exists e. inversion H; subst. split; reflexivity.
  - left. exists a, s1. split; [reflexivity | exact H].
Qed.

Lemma bind_ok {S A B} (m : M S A) (k : A -> M S B) s a s1 :
  m s = (inr a, s1) -> bind m k s = k a s1.
Proof. unfold bind. intros ->. reflexivity. Qed.

Lemma bind_raise {S A B} (m : M S A) (k : A -> M S B) s e s1 :
  m s = (inl e, s1) -> bind m k s = (inl e, s1).
Proof. unfold bind. intros ->. reflexivity. Qed.

(** ** The internal oracle *)

Section InternalOracleFacts.

Import InternalOracle.

Variable testBinary : string -> list string -> bool -> string * Z.

Lemma classify_good_or_bad options stdoutStderr exitCode :
  fst (classify options stdoutStderr exitCode) = good \/
  fst (classify options stdoutStderr exitCode) = bad.
Proof.
  unfold classify.
  repeat match goal with
         | |- context [if ?c then _ else _] => destruct c
         end; simpl; auto.
Qed.

(** C2: with no output filter and no watched exit code, a negative exit code
    [e] is labelled [("bad", "Negative exit code " + str(e))]. *)
Theorem negative_exit_code_is_bad options shellFilename hgHash out e :
  testBinary shellFilename (runtime_params options) (runWithVg options)
    = (out, e) ->
  output options = "" ->
  watchExitCode options = None ->
  e < 0 ->
  internalTestAndLabel testBinary options shellFilename hgHash
    = (bad, "Negative exit code " +:+ Py.str e).
Proof.
  intros Hrun Hout Hwatch Hneg.
  unfold internalTestAndLabel. rewrite Hrun.
  unfold classify. rewrite Hout, Hwatch. cbn [watched watched_other is_None].
  rewrite !andb_false_r. cbn [andb].
  replace (129 <=? e) with false by (symmetry; apply Z.leb_gt; lia).
  replace (e <? 0) with true by (symmetry; apply Z.ltb_lt; lia).
  reflexivity.
Qed.

(** C3: exit code 1 or 2, an output filter that is set and not found, no
    watched exit code, and a marker of a rejected command-line flag in the
    output: the label is good, with the reason of the flag-rejection rule. *)
Theorem rejected_flag_is_good options shellFilename hgHash out e :
  testBinary shellFilename (runtime_params options) (runWithVg options)
    = (out, e) ->
  e = 1 \/ e = 2 ->
  output options <> "" ->
  Py.find out (output options) = -1 ->
  watchExitCode options = None ->
  Py.find out "usage: js [" <> -1 \/
  Py.find out "Error: Short option followed by junk" <> -1 \/
  Py.find out "Error: Invalid long option:" <> -1 \/
  Py.find out "Error: Invalid short option:" <> -1 ->
  internalTestAndLabel testBinary options shellFilename hgHash
    = (good, "Exit code 1 or 2 - js shell quits because it does not support a given CLI parameter").
Proof.
  intros Hrun He Hset Hmiss Hwatch Hmark.
  unfold internalTestAndLabel. rewrite Hrun.
  unfold classify, found. rewrite Hmiss, Hwatch.
  cbn [watched watched_other is_None Z.eqb negb andb].
  assert (Hne : String.eqb (output options) "" = false)
    by (apply String.eqb_neq; exact Hset).
  rewrite Hne. cbn [negb andb].
  assert (Hm : negb (Py.find out "usage: js [" =? -1)
               || negb (Py.find out "Error: Short option followed by junk" =? -1)
               || negb (Py.find out "Error: Invalid long option:" =? -1)
               || negb (Py.find out "Error: Invalid short option:" =? -1)
               = true).
  { rewrite !orb_true_iff, !negb_true_iff, !Z.eqb_neq. tauto. }
  rewrite Hm.
  destruct He as [-> | ->]; reflexivity.
Qed.

End InternalOracleFacts.

(** ** The external oracle *)

Section ExternalOracleFacts.

Import ExternalOracle.

Variable mkdtemp_path : string -> FS -> string.
Variable rel_or_abs_import : string -> ConditionScript.

Lemma within_refl d : within d d = true.
Proof. unfold within. rewrite String.eqb_refl. reflexivity. Qed.

Lemma rm_tree_removes (d : string) (fs : FS) r (fs' : FS) :
  rm_tree_incl_readonly d fs = (r, fs') -> d ∉ fs'.
Proof.
  unfold rm_tree_incl_readonly. intros H. inversion H; subst.
  rewrite elem_of_filter, within_refl. intros [Hf _]. discriminate.
Qed.

(** What a run of [inner] that returns has gone through. *)
Lemma inner_returns options cs prefix shellFilename hgHash fs label fs' :
  inner mkdtemp_path options cs prefix shellFilename hgHash fs
    = (inr label, fs') ->
  exists (b : bool) (fs3 : FS),
    label = (if b then (bad, "interesting") else (good, "not interesting")) /\
    (if bool_decide (mkdtemp_path ("abExtTestAndLabel-" +:+ hgHash) fs ∈ fs3)
     then rm_tree_incl_readonly
            (mkdtemp_path ("abExtTestAndLabel-" +:+ hgHash) fs) fs3
     else (inr tt, fs3)) = (inr tt, fs').
Proof.
  unfold inner. intros H.
  apply bind_inv in H as [(d & fs1 & Hmk & H) | (e & _ & He)]; [| discriminate].
  unfold mkdtemp in Hmk. inversion Hmk; subst d fs1; clear Hmk.
  apply bind_inv in H as [([] & fs2 & _ & H) | (e & _ & He)]; [| discriminate].
  apply bind_inv in H as [(b & fs3 & _ & H) | (e & _ & He)]; [| discriminate].
  apply bind_inv in H as [(isd & fs4 & Hd & H) | (e & _ & He)];
    [| discriminate].
  unfold is_dir in Hd. inversion Hd; subst isd fs4; clear Hd.
  apply bind_inv in H as [([] & fs5 & Hrm & H) | (e & _ & He)];
    [| discriminate].
  unfold ret in H. inversion H; subst. clear H.
  exists b, fs3. split; [reflexivity |].
  destruct (bool_decide _); exact Hrm.
Qed.

(** C5, amended: whenever [inner] returns a label, the directory it made is
    gone. (The removal is the last step before [return]; a test that raises
    leaves [inner] before it.) *)
Theorem scratch_removed_on_return options cs prefix shellFilename hgHash fs
    label fs' :
  inner mkdtemp_path options cs prefix shellFilename hgHash fs
    = (inr label, fs') ->
  mkdtemp_path ("abExtTestAndLabel-" +:+ hgHash) fs ∉ fs'.
Proof.
  intros H. apply inner_returns in H as (b & fs3 & _ & Hrm).
  destruct (bool_decide _) eqn:Hd.
  - eapply rm_tree_removes. exact Hrm.
  - inversion Hrm; subst. apply bool_decide_eq_false in Hd. exact Hd.
Qed.

(** When [inner] raises, it is [init] or [interesting] that raised, and
    [inner] ends in the state that they left: nothing is removed after an
    exception. *)
Lemma inner_raises options cs prefix shellFilename hgHash fs exn fs' :
  inner mkdtemp_path options cs prefix shellFilename hgHash fs
    = (inl exn, fs') ->
  (exists init_fn,
      init cs = Some init_fn /\
      init_fn (prefix ++ [shellFilename] ++ runtime_params options)
              ({[mkdtemp_path ("abExtTestAndLabel-" +:+ hgHash) fs]} ∪ fs)
        = (inl exn, fs')) \/
  (exists fs2,
      interesting cs (prefix ++ [shellFilename] ++ runtime_params options)
        (mkdtemp_path ("abExtTestAndLabel-" +:+ hgHash) fs +:+ "/t") fs2
        = (inl exn, fs')).
Proof.
  unfold inner. intros H.
  apply bind_inv in H as [(d & fs1 & Hmk & H) | (e & He & _)];
    [| discriminate].
  unfold mkdtemp in Hmk. inversion Hmk; subst d fs1; clear Hmk.
  apply bind_inv in H as [([] & fs2 & _ & H) | (e & He & Heq)].
  2: { left. inversion Heq; subst e. destruct (init cs) as [init_fn |];
         [exists init_fn; auto | discriminate]. }
  apply bind_inv in H as [(b & fs3 & _ & H) | (e & He & Heq)].
  2: { right. inversion Heq; subst e. exists fs2. exact He. }
  exfalso. unfold bind, is_dir, rm_tree_incl_readonly, ret in H.
  destruct (bool_decide _); discriminate.
Qed.

(** The external oracle only ever answers [("bad", "interesting")] or
    [("good", "not interesting")]. *)
Lemma external_label options interestingness f shellFilename hgHash fs
    label fs' :
  externalTestAndLabel mkdtemp_path rel_or_abs_import options interestingness
    = inr f ->
  f shellFilename hgHash fs = (inr label, fs') ->
  label = (bad, "interesting") \/ label = (good, "not interesting").
Proof.
  unfold externalTestAndLabel. destruct interestingness as [| name prefix];
    [discriminate |].
  intros Hf Hrun. inversion Hf; subst f.
  apply inner_returns in Hrun as ([] & fs3 & -> & _); auto.
Qed.

(** C10: neither oracle ever says [skip]: the internal one labels good or
    bad whatever the output, the exit code and the options are, and the
    external one returns one of its two fixed labels. *)
Theorem oracles_never_skip :
  (forall testBinary options shellFilename hgHash,
      fst (InternalOracle.internalTestAndLabel testBinary options
             shellFilename hgHash) = good \/
      fst (InternalOracle.internalTestAndLabel testBinary options
             shellFilename hgHash) = bad) /\
  (forall options interestingness f shellFilename hgHash fs label fs',
      externalTestAndLabel mkdtemp_path rel_or_abs_import options
        interestingness = inr f ->
      f shellFilename hgHash fs = (inr label, fs') ->
      label = (bad, "interesting") \/ label = (good, "not interesting")).
Proof.
  split.
  - intros testBinary options shellFilename hgHash.
    unfold InternalOracle.internalTestAndLabel.
    destruct (testBinary _ _ _) as [out e].
    apply classify_good_or_bad.
  - apply external_label.
Qed.

End ExternalOracleFacts.

(** ** Telling hg what we learned: [bisectLabel] *)

Lemma split_cons sep s : exists w ws, Py.split sep s = w :: ws.
Proof.
  induction s as [| c s IH]; simpl.
  - eauto.
  - destruct (Ascii.eqb c sep); [eauto |].
    destruct IH as (w & ws & ->). eauto.
Qed.

Lemma split_first_line out :
  Py.split Py.LF out !! 0%nat = Some (first_line out).
Proof.
  unfold first_line. destruct (split_cons Py.LF out) as (w & ws & ->).
  reflexivity.
Qed.

Section ControllerFacts.

Context {E : Type} {collab : Collaborators E}.

Implicit Types (w : World E) (rev : Rev) (args : list string).

Lemma call_eq {A} ev (op : M E A) w r e' :
  op (ext w) = (r, e') ->
  call ev op w = (r, mkWorld e' (labels w) (trace w ++ [ev])).
Proof. unfold call. intros ->. reflexivity. Qed.

Lemma call_labels {A} ev (op : M E A) w r w' :
  call ev op w = (r, w') -> labels w' = labels w.
Proof.
  unfold call. destruct (op (ext w)) as [r0 e']. intros H.
  inversion H; subst. reflexivity.
Qed.

Lemma call_trace {A} ev (op : M E A) w r w' :
  call ev op w = (r, w') -> trace w' = trace w ++ [ev].
Proof.
  unfold call. destruct (op (ext w)) as [r0 e']. intros H.
  inversion H; subst. reflexivity.
Qed.

(** [bisectLabel] once [hg] has answered [out], leaving the outside in [e1]:
    what happens next depends on the shape of [out] and, for the last two
    shapes, on [options.testInitialRevs]. *)
Lemma bisectLabel_after_mark options hgLabel rev startRepo endRepo w out e1 :
  hg_run (mark_args hgLabel rev) (ext w) = (inr out, e1) ->
  let w1 := mkWorld e1 (labels w) (trace w ++ [EvHg (mark_args hgLabel rev)]) in
  bisectLabel options hgLabel rev startRepo endRepo w =
  match shape_of out with
  | Ambiguous => (inr (None, None, None, startRepo, endRepo), w1)
  | FirstFound which =>
      match Py.split Py.LF out !! 1%nat with
      | Some line1 =>
          (inr (Some which, get_cset_hash_from_bisect_msg line1, None,
                startRepo, endRepo), w1)
      | None => (inl IndexError, w1)
      end
  | NextRevision next =>
      if testInitialRevs options
      then (inr (None, None, None, startRepo, endRepo), w1)
      else (inr (None, None, Some next,
                 match hgLabel with good => next | _ => startRepo end,
                 match hgLabel with bad => next | _ => endRepo end), w1)
  | Unparsed =>
      if testInitialRevs options
      then (inr (None, None, None, startRepo, endRepo), w1)
      else (hg ["update"; "-C"; "default"] ;;
            destroyPyc ;;
            raise (Exception "hg did not suggest a changeset to test!")) w1
  end.
Proof.
  intros Hhg w1. unfold bisectLabel.
  rewrite (bind_ok _ _ _ out w1) by (apply call_eq; exact Hhg).
  unfold item at 1. rewrite split_first_line. unfold shape_of.
  rewrite (bind_ok _ _ _ (first_line out) w1) by reflexivity.
  destruct (match_skipped (first_line out)); [reflexivity |].
  destruct (match_first (first_line out)) as [which |].
  - unfold item. destruct (Py.split Py.LF out !! 1%nat); reflexivity.
  - destruct (get_cset_hash_from_bisect_msg (first_line out)) as [next |];
      destruct (testInitialRevs options); try reflexivity.
    destruct hgLabel; reflexivity.
Qed.


(** C4, amended: when [options.testInitialRevs] is off and the answer of
    [hg] names a revision to test next, [bisectLabel] returns that revision
    as the next candidate; the range is returned as it was for the label
    [skip], with only the start replaced by the suggested revision for
    [good], and with only the end replaced by it for [bad]. *)
Theorem range_after_next_revision options hgLabel rev startRepo endRepo w
    out e1 next :
  testInitialRevs options = false ->
  hg_run (mark_args hgLabel rev) (ext w) = (inr out, e1) ->
  shape_of out = NextRevision next ->
  exists start' end' w',
    bisectLabel options hgLabel rev startRepo endRepo w
      = (inr (None, None, Some next, start', end'), w') /\
    match hgLabel with
    | skip => start' = startRepo /\ end' = endRepo
    | good => start' = next /\ end' = endRepo
    | bad => start' = startRepo /\ end' = next
    end.
Proof.
  intros Hoff Hhg Hshape.
  rewrite (bisectLabel_after_mark _ _ _ _ _ _ _ _ Hhg), Hshape, Hoff.
  eexists _, _, _. split; [reflexivity |].
  destruct hgLabel; split; reflexivity.
Qed.

(** While [options.testInitialRevs] is on, an answer that is neither of the
    two final shapes is not read at all: no candidate, the range as it was,
    and no exception. *)
Lemma bisectLabel_initial options hgLabel rev startRepo endRepo w out e1 :
  testInitialRevs options = true ->
  hg_run (mark_args hgLabel rev) (ext w) = (inr out, e1) ->
  match shape_of out with NextRevision _ | Unparsed => True | _ => False end ->
  bisectLabel options hgLabel rev startRepo endRepo w
    = (inr (None, None, None, startRepo, endRepo),
       mkWorld e1 (labels w) (trace w ++ [EvHg (mark_args hgLabel rev)])).
Proof.
  intros Hon Hhg Hshape.
  rewrite (bisectLabel_after_mark _ _ _ _ _ _ _ _ Hhg), Hon.
  destruct (shape_of out); first [contradiction | reflexivity].
Qed.

(** Whatever [hg] answers and whatever the options are: a call that
    returns for the label [skip] returns the range as it was; and a call that
    returns a candidate was made with [options.testInitialRevs] off and
    moves the range by the label. *)
Lemma bisectLabel_range options hgLabel rev startRepo endRepo w
    which found next start' end' w' :
  bisectLabel options hgLabel rev startRepo endRepo w
    = (inr (which, found, next, start', end'), w') ->
  (hgLabel = skip -> start' = startRepo /\ end' = endRepo) /\
  (forall candidate, next = Some candidate ->
     testInitialRevs options = false /\
     match hgLabel with
     | skip => start' = startRepo /\ end' = endRepo
     | good => start' = candidate /\ end' = endRepo
     | bad => start' = startRepo /\ end' = candidate
     end).
Proof.
  intros H.
  destruct (hg_run (mark_args hgLabel rev) (ext w)) as [[exn | out] e1] eqn:Hhg.
  { unfold bisectLabel, hg in H.
    rewrite (bind_raise _ _ _ _ _ (call_eq _ _ _ _ _ Hhg)) in H.
    discriminate. }
  rewrite (bisectLabel_after_mark _ _ _ _ _ _ _ _ Hhg) in H.
  destruct (shape_of out) as [| gb | candidate |].
  - inversion H; subst. split; [auto | discriminate].
  - destruct (Py.split Py.LF out !! 1%nat); inversion H; subst.
    split; [auto | discriminate].
  - destruct (testInitialRevs options); inversion H; subst.
    + split; [auto | discriminate].
    + split.
      * intros ->. auto.
      * intros c Hc. inversion Hc; subst c. split; [reflexivity |].
        destruct hgLabel; auto.
  - destruct (testInitialRevs options).
    + inversion H; subst. split; [auto | discriminate].
    + exfalso. unfold bind, hg, destroyPyc, call, raise in H.
      cbn [ext labels trace] in H.
      destruct (hg_run _ e1) as [[x2 | o2] e2]; [discriminate |].
      cbn [ext labels trace] in H.
      destruct (destroyPyc_run e2) as [[x3 | []] e3]; discriminate.
Qed.

(** C9, amended: when [options.testInitialRevs] is off and the answer of
    [hg] is neither of the two final shapes and names no revision,
    [bisectLabel] does not return: right after the mark it runs
    [hg update -C default], and it ends by raising; if that command and
    [destroyPyc] go through, what it raises is
    [Exception("hg did not suggest a changeset to test!")]. *)
Theorem unparsed_answer_is_fatal options hgLabel rev startRepo endRepo w
    out e1 :
  testInitialRevs options = false ->
  hg_run (mark_args hgLabel rev) (ext w) = (inr out, e1) ->
  shape_of out = Unparsed ->
  exists exn w' later,
    bisectLabel options hgLabel rev startRepo endRepo w = (inl exn, w') /\
    trace w' = trace w ++ [EvHg (mark_args hgLabel rev);
                           EvHg ["update"; "-C"; "default"]] ++ later /\
    (forall o2 e2 e3,
        hg_run ["update"; "-C"; "default"] e1 = (inr o2, e2) ->
        destroyPyc_run e2 = (inr tt, e3) ->
        exn = Exception "hg did not suggest a changeset to test!" /\
        later = [EvDestroyPyc]).
Proof.
  intros Hoff Hhg Hshape.
  rewrite (bisectLabel_after_mark _ _ _ _ _ _ _ _ Hhg), Hshape, Hoff.
  unfold bind, hg, destroyPyc, call, raise. cbn [ext labels trace].
  destruct (hg_run ["update"; "-C"; "default"] e1) as [[x2 | o2] e2] eqn:Hup.
  - eexists _, _, []. split; [reflexivity |]. cbn [trace].
    split; [rewrite <- app_assoc; reflexivity |].
    intros ? ? ? Heq. discriminate Heq.
  - cbn [ext labels trace].
    destruct (destroyPyc_run e2) as [[x3 | []] e3] eqn:Hpyc.
    + eexists _, _, [EvDestroyPyc]. split; [reflexivity |]. cbn [trace].
      split; [rewrite <- !app_assoc; reflexivity |].
      intros ? ? ? Heq. inversion Heq; subst. rewrite Hpyc. discriminate.
    + eexists _, _, [EvDestroyPyc]. split; [reflexivity |]. cbn [trace].
      split; [rewrite <- !app_assoc; reflexivity |].
      intros ? ? ? _ _. split; reflexivity.
Qed.

(** ** The loop of [findBlamedCset] when nothing can be tested *)

Lemma tests_in_app a b : tests_in (a ++ b) = (tests_in a + tests_in b)%nat.
Proof. unfold tests_in. rewrite List.filter_app, length_app. reflexivity. Qed.

Lemma quiet_ret {A} (a : A) : quiet (ret (S := World E) a).
Proof.
  intros w r w' H. inversion H; subst. exists []. rewrite app_nil_r. auto.
Qed.

Lemma quiet_raise {A} exn : quiet (raise (S := World E) (A := A) exn).
Proof.
  intros w r w' H. inversion H; subst. exists []. rewrite app_nil_r. auto.
Qed.

Lemma quiet_bind {A B} (m : M (World E) A) (k : A -> M (World E) B) :
  quiet m -> (forall a, quiet (k a)) -> quiet (bind m k).
Proof.
  intros Hm Hk w r w' H.
  apply bind_inv in H as [(a & w1 & H1 & H2) | (exn & H1 & ->)].
  - apply Hm in H1 as (new1 & Ht1 & Hn1). apply Hk in H2 as (new2 & Ht2 & Hn2).
    exists (new1 ++ new2).
    rewrite Ht2, Ht1, app_assoc, tests_in_app, Hn1, Hn2. auto.
  - apply Hm in H1. exact H1.
Qed.

Lemma quiet_call {A} ev (op : M E A) : is_test ev = false -> quiet (call ev op).
Proof.
  intros Hev w r w' H. apply call_trace in H. exists [ev]. split; [exact H |].
  unfold tests_in. simpl. rewrite Hev. reflexivity.
Qed.

Lemma quiet_item {A} (l : list A) i : quiet (item (S := World E) l i).
Proof.
  unfold item. destruct (l !! i); [apply quiet_ret | apply quiet_raise].
Qed.

Lemma quiet_bisectLabel options hgLabel rev startRepo endRepo :
  quiet (bisectLabel options hgLabel rev startRepo endRepo).
Proof.
  unfold bisectLabel.
  apply quiet_bind; [apply quiet_call; reflexivity | intros out].
  apply quiet_bind; [apply quiet_item | intros line0].
  destruct (match_skipped line0); [apply quiet_ret |].
  destruct (match_first line0).
  { apply quiet_bind; [apply quiet_item | intros; apply quiet_ret]. }
  destruct (testInitialRevs options); [apply quiet_ret |].
  destruct (get_cset_hash_from_bisect_msg line0).
  { destruct hgLabel; apply quiet_ret. }
  apply quiet_bind; [apply quiet_call; reflexivity | intros _].
  apply quiet_bind; [apply quiet_call; reflexivity | intros _].
  apply quiet_raise.
Qed.

(** A round in which the test says [skip]: the test is made and recorded,
    then the rest of the round runs. *)
Lemma loop_body_skip rev st w :
  always_skips ->
  exists reason e1,
    loop_body rev st w
    = round_after_test rev (skip, reason) st
        (mkWorld e1 (<[rev := (skip, reason)]> (labels w))
                 (trace w ++ [EvTestRev rev])).
Proof.
  intros Hskip. destruct (Hskip rev (ext w)) as (reason & e1 & Htest).
  exists reason, e1. unfold loop_body, run_testRev.
  rewrite (bind_ok _ _ _ _ _ (call_eq _ _ _ _ _ Htest)).
  reflexivity.
Qed.

(** The twenty-first skip ends the loop, and nothing is told to [hg]. *)
Lemma round_skip_break rev reason st w :
  20 < skipCount st + 1 ->
  round_after_test rev (skip, reason) st w
  = (inr (true,
          mkLoop (options st) (currRev st) (sRepo st) (eRepo st)
                 (skipCount st + 1) (iterNum st) (blamedGoodOrBad st)
                 (blamedRev st)), w).
Proof.
  intros Hover. unfold round_after_test. cbn [fst verdict_eqb andb].
  replace (20 <? skipCount st + 1) with true
    by (symmetry; apply Z.ltb_lt; exact Hover).
  reflexivity.
Qed.

(** A tolerated skip, whatever [hg] answers: no further test is made, and
    if the round goes on it does so with one more skip counted. *)
Lemma round_skip_tolerated rev reason st w r w' :
  skipCount st + 1 <= 20 ->
  round_after_test rev (skip, reason) st w = (r, w') ->
  (exists new, trace w' = trace w ++ new /\ tests_in new = 0%nat) /\
  match r with
  | inr (stop, st') => stop = false /\ skipCount st' = skipCount st + 1
  | inl _ => True
  end.
Proof.
  intros Hle. unfold round_after_test. cbn [fst verdict_eqb andb].
  replace (20 <? skipCount st + 1) with false
    by (symmetry; apply Z.ltb_ge; exact Hle).
  intros H.
  apply bind_inv in H as [(v5 & w1 & H1 & H2) | (exn & H1 & ->)].
  2: { split; [| exact I]. eapply quiet_bisectLabel. exact H1. }
  apply quiet_bisectLabel in H1 as Hq.
  destruct v5 as [[[[gb brev] cur] s'] e'].
  apply bind_inv in H2 as [([o' c'] & w2 & H2 & H3) | (exn & H2 & ->)].
  - inversion H3; subst r w'. clear H3.
    assert (w2 = w1) as ->.
    { destruct (testInitialRevs (options st)); [destruct cur |];
        inversion H2; reflexivity. }
    split; [exact Hq | split; reflexivity].
  - assert (w' = w1) as ->.
    { destruct (testInitialRevs (options st)); [destruct cur |];
        inversion H2; reflexivity. }
    split; [exact Hq | exact I].
Qed.

(** A tolerated skip when [hg] names another revision: the mark is made and
    the loop goes on with a candidate. *)
Lemma round_skip_proposed rev reason st w :
  always_proposes ->
  skipCount st + 1 <= 20 ->
  exists st' e2,
    round_after_test rev (skip, reason) st w
    = (inr (false, st'),
       mkWorld e2 (labels w) (trace w ++ [EvHg (mark_args skip rev)])) /\
    currRev st' <> None /\
    skipCount st' = skipCount st + 1.
Proof.
  intros Hprop Hle.
  destruct (Hprop skip rev (ext w)) as (out & e2 & next & Hhg & Hshape).
  assert (Hb : bisectLabel (options st) skip rev (sRepo st) (eRepo st) w
               = (inr (None, None,
                       (if testInitialRevs (options st) then None
                        else Some next), sRepo st, eRepo st),
                  mkWorld e2 (labels w)
                          (trace w ++ [EvHg (mark_args skip rev)]))).
  { rewrite (bisectLabel_after_mark _ _ _ _ _ _ _ _ Hhg), Hshape.
    destruct (testInitialRevs (options st)); reflexivity. }
  unfold round_after_test. cbn [fst verdict_eqb andb].
  replace (20 <? skipCount st + 1) with false
    by (symmetry; apply Z.ltb_ge; exact Hle).
  rewrite (bind_ok _ _ _ _ _ Hb).
  destruct (testInitialRevs (options st)); cbn;
    eexists _, _; (split; [reflexivity | split; [discriminate | reflexivity]]).
Qed.

Lemma loop_round fuel st rev w :
  currRev st = Some rev ->
  findBlamedCset_loop (S fuel) st w
  = match loop_body rev st w with
    | (inr (true, st'), w') => (inr (Some st'), w')
    | (inr (false, st'), w') => findBlamedCset_loop fuel st' w'
    | (inl exn, w') => (inl exn, w')
    end.
Proof.
  intros Hcur. cbn [findBlamedCset_loop]. rewrite Hcur. unfold bind.
  destruct (loop_body rev st w) as [[exn | [[] st']] w']; reflexivity.
Qed.

(** Whatever [hg] answers: when every test says [skip], the loop is over
    within [n + 1] rounds once only [n] more skips are tolerated, and it
    makes at most [n + 1] tests. *)
Lemma loop_under_skips_bounded n : forall st w fuel,
  always_skips ->
  skipCount st = 20 - Z.of_nat n ->
  (S n <= fuel)%nat ->
  exists r w' new,
    findBlamedCset_loop fuel st w = (r, w') /\
    r <> inr None /\
    trace w' = trace w ++ new /\
    (tests_in new <= S n)%nat.
Proof.
  induction n as [| n IH]; intros st w fuel Hskip Hcount Hfuel;
    (destruct fuel as [| fuel]; [lia |]);
    destruct (currRev st) as [rev |] eqn:Hcur.
  2, 4: cbn [findBlamedCset_loop]; rewrite Hcur;
        exists (inr (Some st)), w, []; rewrite app_nil_r;
        (repeat split; [discriminate | cbn; lia]).
  - rewrite (loop_round _ _ _ _ Hcur).
    destruct (loop_body_skip rev st w Hskip) as (reason & e1 & ->).
    rewrite round_skip_break by lia.
    eexists _, _, [EvTestRev rev]. repeat split; [discriminate | cbn; lia].
  - rewrite (loop_round _ _ _ _ Hcur).
    destruct (loop_body_skip rev st w Hskip) as (reason & e1 & ->).
    destruct (round_after_test _ _ _ _) as [r1 w2] eqn:Hr.
    apply round_skip_tolerated in Hr as [(new & Ht & Hn) Hres]; [| lia].
    cbn [trace] in Ht.
    destruct r1 as [exn | [stop st']].
    + exists (inl exn), w2, ([EvTestRev rev] ++ new).
      repeat split; [discriminate | rewrite Ht, <- app_assoc; reflexivity |].
      rewrite tests_in_app, Hn. cbn. lia.
    + destruct Hres as [-> Hcount'].
      destruct (IH st' w2 fuel Hskip)
        as (r & w' & new' & Hloop & Hr & Ht' & Hn');
        [lia | lia |].
      exists r, w', ([EvTestRev rev] ++ new ++ new').
      repeat split; [exact Hloop | exact Hr | |].
      * rewrite Ht', Ht, <- !app_assoc. reflexivity.
      * rewrite !tests_in_app, Hn. cbn. lia.
Qed.

(** When moreover [hg] always names another revision, the rounds are
    exactly these: [n] tolerated skips, each marked, and one last test. *)
Lemma loop_under_skips_exact n : forall st w fuel,
  always_skips ->
  always_proposes ->
  currRev st <> None ->
  skipCount st = 20 - Z.of_nat n ->
  (S n <= fuel)%nat ->
  exists st' w' tolerated last,
    findBlamedCset_loop fuel st w = (inr (Some st'), w') /\
    length tolerated = n /\
    trace w' = trace w ++ concat (map skip_round tolerated)
                       ++ [EvTestRev last] /\
    skipCount st' = 21.
Proof.
  induction n as [| n IH]; intros st w fuel Hskip Hprop Hcand Hcount Hfuel;
    (destruct fuel as [| fuel]; [lia |]);
    (destruct (currRev st) as [rev |] eqn:Hcur; [| congruence]);
    rewrite (loop_round _ _ _ _ Hcur);
    destruct (loop_body_skip rev st w Hskip) as (reason & e1 & ->).
  - rewrite round_skip_break by lia.
    eexists _, _, [], rev. repeat split. cbn [skipCount]. lia.
  - destruct (round_skip_proposed rev reason st
                (mkWorld e1 (<[rev := (skip, reason)]> (labels w))
                         (trace w ++ [EvTestRev rev])) Hprop)
      as (st1 & e2 & -> & Hcand1 & Hcount1); [lia |].
    cbn [labels trace].
    destruct (IH st1 (mkWorld e2 (<[rev := (skip, reason)]> (labels w))
                        ((trace w ++ [EvTestRev rev])
                           ++ [EvHg (mark_args skip rev)]))
                 fuel Hskip Hprop Hcand1)
      as (st' & w' & tolerated & last & Hloop & Hlen & Ht & Hfin);
      [lia | lia |].
    exists st', w', (rev :: tolerated), last.
    repeat split; [exact Hloop | cbn; lia | | exact Hfin].
    rewrite Ht. cbn [trace map concat skip_round].
    rewrite <- !app_assoc. reflexivity.
Qed.

(** C1: when every test says [skip], the loop of [findBlamedCset] is over
    within 21 rounds and 21 tests, whatever [hg] answers; and when [hg] names
    another revision after every mark, it makes exactly 21 tests: each of the
    first 20 is followed by the mark of the tested revision as skipped, and
    the 21st, which brings the count to 21, is followed by nothing. *)
Theorem skip_overflow_stops_at_21 st w fuel :
  always_skips ->
  skipCount st = 0 ->
  (21 <= fuel)%nat ->
  (exists r w' new,
      findBlamedCset_loop fuel st w = (r, w') /\
      r <> inr None /\
      trace w' = trace w ++ new /\
      (tests_in new <= 21)%nat) /\
  (always_proposes ->
   currRev st <> None ->
   exists st' w' tolerated last,
     findBlamedCset_loop fuel st w = (inr (Some st'), w') /\
     length tolerated = 20%nat /\
     trace w' = trace w ++ concat (map skip_round tolerated)
                        ++ [EvTestRev last] /\
     skipCount st' = 21).
Proof.
  intros Hskip Hcount Hfuel. split.
  - apply (loop_under_skips_bounded 20); [exact Hskip | lia | lia].
  - intros Hprop Hcand.
    apply (loop_under_skips_exact 20); [assumption .. | lia | lia].
Qed.

(** ** The merge-blame check: [checkBlameParents] *)

(** The body of the loop over the parents, case by case: a parent that has
    a label is only compared; a parent that has none is tested and its label
    recorded, unless the test raises. *)
Lemma parent_body_eq blamedGoodOrBad startRepo endRepo p flags w :
  parent_body blamedGoodOrBad startRepo endRepo p flags w =
  match labels w !! p with
  | Some (v, _) =>
      (inr (fst flags || verdict_eqb v (verdict_of blamedGoodOrBad),
            snd flags), w)
  | None =>
      match testRev p (ext w) with
      | (inl exn, e1) =>
          (inl exn, mkWorld e1 (labels w) (trace w ++ [EvTestRev p]))
      | (inr (v, reason), e1) =>
          (inr (fst flags || verdict_eqb v (verdict_of blamedGoodOrBad),
                negb (isAncestor startRepo p) && negb (isAncestor endRepo p)
                || snd flags),
           mkWorld e1 (<[p := (v, reason)]> (labels w))
                   (trace w ++ [EvTestRev p]))
      end
  end.
Proof.
  unfold parent_body, ensure_tested, check_label, labels_get, labels_item,
    labels_set, run_testRev, call, bind, ret, raise.
  destruct (labels w !! p) as [[v reason] |] eqn:Hp.
  - rewrite Hp. cbn [fst].
    destruct v, blamedGoodOrBad, (fst flags); reflexivity.
  - destruct (testRev p (ext w)) as [[exn | [v reason]] e1]; [reflexivity |].
    cbn [labels ext trace]. rewrite lookup_insert_eq. cbn [fst].
    destruct (negb (isAncestor startRepo p) && negb (isAncestor endRepo p));
      destruct v, blamedGoodOrBad, (fst flags); reflexivity.
Qed.

(** One parent: the labels that were there stay, and the only label that
    can come is that of the parent, if it had none. *)
Lemma parent_body_labels blamedGoodOrBad startRepo endRepo p flags w r w' :
  parent_body blamedGoodOrBad startRepo endRepo p flags w = (r, w') ->
  (forall k l, labels w !! k = Some l -> labels w' !! k = Some l) /\
  (forall k, labels w !! k = None -> labels w' !! k <> None -> k = p).
Proof.
  rewrite parent_body_eq.
  destruct (labels w !! p) as [[v reason] |] eqn:Hp.
  - intros H. inversion H; subst. split; [auto | congruence].
  - destruct (testRev p (ext w)) as [[exn | [v reason]] e1];
      intros H; inversion H; subst; cbn [labels].
    + split; [auto | congruence].
    + split.
      * intros k l Hk. rewrite lookup_insert_ne; [exact Hk |].
        intros ->. pose proof (eq_trans (eq_sym Hk) Hp). discriminate.
      * intros k Hk Hk'. destruct (decide (p = k)) as [-> | Hne];
          [reflexivity |].
        rewrite lookup_insert_ne in Hk' by exact Hne. contradiction.
Qed.

(** The whole loop over the parents, however it ends. *)
Lemma parents_loop_labels blamedGoodOrBad startRepo endRepo parents :
  forall flags w r w',
  for_each (parent_body blamedGoodOrBad startRepo endRepo) parents flags w
    = (r, w') ->
  (forall k l, labels w !! k = Some l -> labels w' !! k = Some l) /\
  (forall k, labels w !! k = None -> labels w' !! k <> None -> k ∈ parents).
Proof.
  induction parents as [| p parents IH]; intros flags w r w' H.
  - inversion H; subst. split; [auto | congruence].
  - cbn [for_each] in H.
    apply bind_inv in H as [(flags1 & w1 & H1 & H2) | (exn & H1 & ->)].
    + apply parent_body_labels in H1 as [Hkeep1 Hnew1].
      apply IH in H2 as [Hkeep2 Hnew2]. split.
      * intros k l Hk. apply Hkeep2, Hkeep1, Hk.
      * intros k Hk Hk'.
        destruct (labels w1 !! k) eqn:Hk1.
        -- rewrite (Hnew1 k Hk) by congruence. apply list_elem_of_here.
        -- apply list_elem_of_further, Hnew2; assumption.
    + apply parent_body_labels in H1 as [Hkeep1 Hnew1]. split; [exact Hkeep1 |].
      intros k Hk Hk'. rewrite (Hnew1 k Hk Hk'). apply list_elem_of_here.
Qed.

(** The explanation tests the common ancestor but records nothing. *)
Lemma explain_labels parents flags w r w' :
  explain parents flags w = (r, w') -> labels w' = labels w.
Proof.
  unfold explain, item, run_testRev, call, bind, ret, raise.
  destruct (fst flags), (snd flags), (parents !! 0%nat), (parents !! 1%nat);
    try (intros H; inversion H; reflexivity).
  destruct (testRev _ (ext w)) as [[exn | label] e1];
    intros H; inversion H; reflexivity.
Qed.

(** C7: [checkBlameParents] keeps every label that was there before the
    call, however the call ends; and a revision that has a label afterwards
    and had none before is one of the parents that [hg] listed for the
    blamed revision. (The common ancestor is tested, and its label is not
    stored.) *)
Theorem checkBlameParents_keeps_labels blamedRev blamedGoodOrBad startRepo
    endRepo w r w' :
  checkBlameParents blamedRev blamedGoodOrBad startRepo endRepo w = (r, w') ->
  (forall k l, labels w !! k = Some l -> labels w' !! k = Some l) /\
  (forall k, labels w !! k = None -> labels w' !! k <> None ->
     exists out e1,
       hg_run (parent_args blamedRev) (ext w) = (inr out, e1) /\
       k ∈ parents_of_output out).
Proof.
  unfold checkBlameParents. intros H.
  apply bind_inv in H as [(out & w1 & H1 & H2) | (exn & H1 & ->)].
  2: { apply call_labels in H1. rewrite H1. split; [auto | congruence]. }
  unfold hg, call in H1.
  destruct (hg_run (parent_args blamedRev) (ext w)) as [res e1] eqn:Hhg.
  inversion H1; subst res w1; clear H1.
  destruct (length (parents_of_output out) =? 1)%nat.
  { inversion H2; subst. cbn [labels]. split; [auto | congruence]. }
  apply bind_inv in H2 as [(flags & w2 & H2 & H3) | (exn & H2 & ->)].
  - apply parents_loop_labels in H2 as [Hkeep Hnew].
    cbn [labels] in Hkeep, Hnew.
    apply explain_labels in H3. rewrite H3. split; [exact Hkeep |].
    intros k Hk Hk'. exists out, e1. split; [reflexivity | auto].
  - apply parents_loop_labels in H2 as [Hkeep Hnew].
    cbn [labels] in Hkeep, Hnew.
    split; [exact Hkeep |].
    intros k Hk Hk'. exists out, e1. split; [reflexivity | auto].
Qed.

Lemma verdict_eqb_eq a b : verdict_eqb a b = true <-> a = b.
Proof. destruct a, b; cbn; split; intros H; congruence. Qed.

(** C8, amended: a parent [p] of the blamed revision that has no label yet
    is tested and the label is recorded under [p]; and
    [missedCommonAncestor] is raised by it exactly when neither the original
    start nor the original end is an ancestor of [p], that is when [p]
    descends from neither endpoint. *)
Theorem untested_parent_is_tested blamedGoodOrBad startRepo endRepo p flags
    w label e1 :
  labels w !! p = None ->
  testRev p (ext w) = (inr label, e1) ->
  exists bisectLied',
    parent_body blamedGoodOrBad startRepo endRepo p flags w
    = (inr (bisectLied',
            negb (isAncestor startRepo p) && negb (isAncestor endRepo p)
            || snd flags),
       mkWorld e1 (<[p := label]> (labels w)) (trace w ++ [EvTestRev p])).
Proof.
  intros Hnone Htest. rewrite parent_body_eq.
  pose proof (eq_trans (eq_sym Hnone) eq_refl) as Hnone'.
  destruct (labels w !! p); [discriminate |].
  rewrite Htest. destruct label as [v reason]. eexists. reflexivity.
Qed.

(** The flags when the loop over the parents has run through: [bisectLied]
    tells whether some parent ended up with the blamed verdict, and
    [missedCommonAncestor] whether some parent came without a label and
    descends from neither endpoint. Every parent has a label by then. *)
Lemma parents_loop_flags blamedGoodOrBad startRepo endRepo parents :
  forall flags w flags' w',
  for_each (parent_body blamedGoodOrBad startRepo endRepo) parents flags w
    = (inr flags', w') ->
  (fst flags' = true <->
   fst flags = true \/
   exists p reason,
     p ∈ parents /\
     labels w' !! p = Some (verdict_of blamedGoodOrBad, reason)) /\
  (snd flags' = true <->
   snd flags = true \/
   exists p,
     p ∈ parents /\ labels w !! p = None /\
     isAncestor startRepo p = false /\ isAncestor endRepo p = false) /\
  (forall p, p ∈ parents -> labels w' !! p <> None).
Proof.
  induction parents as [| p parents IH]; intros flags w flags' w' H.
  - inversion H; subst. repeat split; auto.
    + intros [Hf | (p & ? & Hin & _)]; [exact Hf | inversion Hin].
    + intros [Hf | (p & Hin & _)]; [exact Hf | inversion Hin].
    + intros p Hin. inversion Hin.
  - cbn [for_each] in H.
    apply bind_inv in H as [(flags1 & w1 & H1 & H2) | (exn & _ & Hexn)];
      [| discriminate].
    pose proof (parents_loop_labels _ _ _ _ _ _ _ _ H2) as [Hkeep _].
    apply IH in H2 as (Hlied & Hmissed & Hall). clear IH.
    rewrite parent_body_eq in H1.
    destruct (labels w !! p) as [[v reason] |] eqn:Hp.
    + (* the parent had a label *)
      inversion H1; subst flags1 w1; clear H1. cbn [fst snd] in Hlied, Hmissed.
      pose proof (Hkeep _ _ Hp) as Hp'.
      split; [| split].
      * rewrite Hlied, orb_true_iff, verdict_eqb_eq. split.
        -- intros [[Hf | ->] | (q & rq & Hin & Hq)]; [auto | |].
           ++ right. exists p, reason.
              split; [apply list_elem_of_here | exact Hp'].
           ++ right. exists q, rq.
              split; [apply list_elem_of_further, Hin | exact Hq].
        -- intros [Hf | (q & rq & Hin & Hq)]; [auto |].
           apply elem_of_cons in Hin as [-> | Hin].
           ++ left. right.
              pose proof (eq_trans (eq_sym Hp') Hq) as Heq. congruence.
           ++ right. exists q, rq. auto.
      * rewrite Hmissed. split.
        -- intros [Hf | (q & Hin & Hq)]; [auto |].
           right. exists q. split; [apply list_elem_of_further, Hin | exact Hq].
        -- intros [Hf | (q & Hin & Hq & Hanc)]; [auto |].
           apply elem_of_cons in Hin as [-> | Hin].
           ++ pose proof (eq_trans (eq_sym Hp) Hq). discriminate.
           ++ right. exists q. auto.
      * intros q Hin. apply elem_of_cons in Hin as [-> | Hin]; [| auto].
        intros Hnone. pose proof (eq_trans (eq_sym Hp') Hnone). discriminate.
    + (* the parent is tested now *)
      destruct (testRev p (ext w)) as [[exn | [v reason]] e1]; [discriminate |].
      inversion H1; subst flags1 w1; clear H1.
      cbn [fst snd labels] in Hlied, Hmissed, Hkeep.
      assert (Hp' : labels w' !! p = Some (v, reason))
        by (apply Hkeep, lookup_insert_eq).
      split; [| split].
      * rewrite Hlied, orb_true_iff, verdict_eqb_eq. split.
        -- intros [[Hf | ->] | (q & rq & Hin & Hq)]; [auto | |].
           ++ right. exists p, reason.
              split; [apply list_elem_of_here | exact Hp'].
           ++ right. exists q, rq.
              split; [apply list_elem_of_further, Hin | exact Hq].
        -- intros [Hf | (q & rq & Hin & Hq)]; [auto |].
           apply elem_of_cons in Hin as [-> | Hin].
           ++ left. right.
              pose proof (eq_trans (eq_sym Hp') Hq) as Heq. congruence.
           ++ right. exists q, rq. auto.
      * rewrite Hmissed, orb_true_iff, andb_true_iff, !negb_true_iff. split.
        -- intros [[[Hs He] | Hf] | (q & Hin & Hq & Hanc)]; [| auto |].
           ++ right. exists p. split; [apply list_elem_of_here | auto].
           ++ right. exists q. split; [apply list_elem_of_further, Hin |].
              split; [| exact Hanc].
              destruct (decide (p = q)) as [-> | Hne];
                [rewrite lookup_insert_eq in Hq; discriminate |].
              rewrite lookup_insert_ne in Hq by exact Hne. exact Hq.
        -- intros [Hf | (q & Hin & Hq & Hanc)]; [auto |].
           destruct (decide (p = q)) as [-> | Hne]; [auto |].
           apply elem_of_cons in Hin as [-> | Hin]; [congruence |].
           right. exists q. split; [exact Hin |]. split; [| exact Hanc].
           rewrite lookup_insert_ne by exact Hne. exact Hq.
      * intros q Hin. apply elem_of_cons in Hin as [-> | Hin]; [| auto].
        intros Hnone. pose proof (eq_trans (eq_sym Hp') Hnone). discriminate.
Qed.

Lemma explain_outcome parents flags w outcome w' :
  explain parents flags w = (inr outcome, w') ->
  (outcome = IntroducedByMerge <-> fst flags = false).
Proof.
  unfold explain, item, run_testRev, call, bind, ret, raise.
  destruct (fst flags), (snd flags), (parents !! 0%nat), (parents !! 1%nat);
    try (intros H; inversion H; split; intros; congruence).
  destruct (testRev _ (ext w)) as [[exn | label] e1];
    intros H; inversion H; split; intros; congruence.
Qed.

(** The comparison of lines 390 to 398 never raises: the label of the
    parent is [skip], the blamed verdict, or its opposite. *)
Lemma check_label_eq blamedGoodOrBad p bisectLied w v reason :
  labels w !! p = Some (v, reason) ->
  check_label blamedGoodOrBad p bisectLied w
  = (inr (bisectLied || verdict_eqb v (verdict_of blamedGoodOrBad)), w).
Proof.
  intros Hp. unfold check_label, labels_item, bind, ret, raise.
  pose proof (eq_trans (eq_sym Hp) eq_refl) as Hp'.
  destruct (labels w !! p) as [[v' reason'] |]; [| discriminate].
  inversion Hp'; subst v' reason'. cbn [fst].
  destruct v, blamedGoodOrBad, bisectLied; reflexivity.
Qed.

(** The loop over the parents and the explanation return when the tests
    do. *)
Lemma parents_loop_returns blamedGoodOrBad startRepo endRepo :
  (forall p e, exists label e', testRev p e = (inr label, e')) ->
  forall parents flags w,
  exists flags' w',
    for_each (parent_body blamedGoodOrBad startRepo endRepo) parents flags w
    = (inr flags', w').
Proof.
  intros Htests. induction parents as [| p parents IH]; intros flags w.
  - exists flags, w. reflexivity.
  - cbn [for_each].
    assert (Hbody : exists flags1 w1,
               parent_body blamedGoodOrBad startRepo endRepo p flags w
               = (inr flags1, w1)).
    { rewrite parent_body_eq.
      destruct (labels w !! p) as [[v reason] |]; [eauto |].
      destruct (Htests p (ext w)) as ([v reason] & e1 & ->). eauto. }
    destruct Hbody as (flags1 & w1 & Hbody).
    rewrite (bind_ok _ _ _ _ _ Hbody). apply IH.
Qed.

Lemma explain_returns parents flags w :
  (forall p e, exists label e', testRev p e = (inr label, e')) ->
  (1 < length parents)%nat ->
  exists outcome w', explain parents flags w = (inr outcome, w').
Proof.
  intros Htests Hlen.
  destruct parents as [| p0 [| p1 rest]]; cbn [length] in Hlen; try lia.
  unfold explain, item, run_testRev, call, bind, ret.
  destruct (fst flags); [| eauto].
  destruct (snd flags); [| eauto].
  cbn [lookup list_lookup].
  destruct (Htests (findCommonAncestor p0 p1) (ext w)) as (label & e1 & ->).
  eauto.
Qed.

(** What a returning call reports for a merge. *)
Lemma merge_report blamedRev blamedGoodOrBad startRepo endRepo w out e1
    outcome w' :
  hg_run (parent_args blamedRev) (ext w) = (inr out, e1) ->
  (1 < length (parents_of_output out))%nat ->
  checkBlameParents blamedRev blamedGoodOrBad startRepo endRepo w
    = (inr outcome, w') ->
  (outcome = IntroducedByMerge <->
   forall p v reason,
     p ∈ parents_of_output out ->
     labels w' !! p = Some (v, reason) ->
     v <> verdict_of blamedGoodOrBad).
Proof.
  intros Hhg Hmerge Hrun.
  unfold checkBlameParents, hg in Hrun.
  rewrite (bind_ok _ _ _ _ _ (call_eq _ _ _ _ _ Hhg)) in Hrun.
  replace (length (parents_of_output out) =? 1)%nat with false in Hrun
    by (symmetry; apply Nat.eqb_neq; lia).
  apply bind_inv in Hrun as [(flags & w2 & Hloop & Hexp) | (exn & _ & Hexn)];
    [| discriminate].
  apply parents_loop_flags in Hloop as (Hlied & _ & _).
  pose proof (explain_labels _ _ _ _ _ Hexp) as Hkept.
  apply explain_outcome in Hexp. rewrite Hexp, Hkept.
  cbn [fst] in Hlied. split.
  - intros Hno p v reason Hin Hp ->.
    assert (fst flags = true) by (apply Hlied; right; eauto).
    congruence.
  - intros Hnone. destruct (fst flags); [| reflexivity].
    destruct Hlied as [Hlied _].
    destruct (Hlied eq_refl) as [Hf | (p & reason & Hin & Hp)];
      [discriminate |].
    exfalso. exact (Hnone p _ reason Hin Hp eq_refl).
Qed.

(** C6: when the label of a parent is compared with the blamed verdict, a
    parent whose recorded verdict is the blamed one sets [bisectLied] (and,
    in the loop, nothing else); a parent recorded as [skip] leaves
    [bisectLied] as it was, in the loop it changes neither flag, and it
    raises no exception; and for a blamed revision with more than one
    parent, a call that returns reports that the merge itself introduced the
    regression exactly when no parent has the blamed verdict.

    The same holds for a parent that comes without a label and is tested in
    the loop: if its test says [skip], [bisectLied] stays as it was and the
    loop goes on, and if its test gives the blamed verdict, [bisectLied] is
    set; the other flag is then what the ancestry test made it, whatever the
    test said.

    And the call does return, with that report, whenever [hg] lists the
    parents and the tests return: with no parent of the blamed verdict, the
    report that the merge introduced the regression is made. *)
Theorem parents_against_blame :
  (forall blamedGoodOrBad p bisectLied w reason,
      labels w !! p = Some (verdict_of blamedGoodOrBad, reason) ->
      check_label blamedGoodOrBad p bisectLied w = (inr true, w)) /\
  (forall blamedGoodOrBad p bisectLied w reason,
      labels w !! p = Some (skip, reason) ->
      check_label blamedGoodOrBad p bisectLied w = (inr bisectLied, w)) /\
  (forall blamedGoodOrBad startRepo endRepo p flags w reason,
      labels w !! p = Some (verdict_of blamedGoodOrBad, reason) ->
      parent_body blamedGoodOrBad startRepo endRepo p flags w
        = (inr (true, snd flags), w)) /\
  (forall blamedGoodOrBad startRepo endRepo p flags w reason,
      labels w !! p = Some (skip, reason) ->
      parent_body blamedGoodOrBad startRepo endRepo p flags w
        = (inr flags, w)) /\
  (forall blamedRev blamedGoodOrBad startRepo endRepo w out e1 outcome w',
      hg_run (parent_args blamedRev) (ext w) = (inr out, e1) ->
      (1 < length (parents_of_output out))%nat ->
      checkBlameParents blamedRev blamedGoodOrBad startRepo endRepo w
        = (inr outcome, w') ->
      (outcome = IntroducedByMerge <->
       forall p v reason,
         p ∈ parents_of_output out ->
         labels w' !! p = Some (v, reason) ->
         v <> verdict_of blamedGoodOrBad)) /\
  (forall blamedGoodOrBad startRepo endRepo p flags w reason e1,
      labels w !! p = None ->
      testRev p (ext w) = (inr (skip, reason), e1) ->
      parent_body blamedGoodOrBad startRepo endRepo p flags w
        = (inr (fst flags,
                negb (isAncestor startRepo p) && negb (isAncestor endRepo p)
                || snd flags),
           mkWorld e1 (<[p := (skip, reason)]> (labels w))
                   (trace w ++ [EvTestRev p]))) /\
  (forall blamedGoodOrBad startRepo endRepo p flags w reason e1,
      labels w !! p = None ->
      testRev p (ext w) = (inr (verdict_of blamedGoodOrBad, reason), e1) ->
      parent_body blamedGoodOrBad startRepo endRepo p flags w
        = (inr (true,
                negb (isAncestor startRepo p) && negb (isAncestor endRepo p)
                || snd flags),
           mkWorld e1
                   (<[p := (verdict_of blamedGoodOrBad, reason)]> (labels w))
                   (trace w ++ [EvTestRev p]))) /\
  (forall blamedRev blamedGoodOrBad startRepo endRepo w out e1,
      hg_run (parent_args blamedRev) (ext w) = (inr out, e1) ->
      (1 < length (parents_of_output out))%nat ->
      (forall p e, exists label e', testRev p e = (inr label, e')) ->
      exists outcome w',
        checkBlameParents blamedRev blamedGoodOrBad startRepo endRepo w
          = (inr outcome, w') /\
        (outcome = IntroducedByMerge <->
         forall p v reason,
           p ∈ parents_of_output out ->
           labels w' !! p = Some (v, reason) ->
           v <> verdict_of blamedGoodOrBad)).
Proof.
  assert (Hsame : forall gb, verdict_eqb (verdict_of gb) (verdict_of gb) = true)
    by (intros gb; apply verdict_eqb_eq; reflexivity).
  assert (Hskip : forall gb, verdict_eqb skip (verdict_of gb) = false)
    by (intros []; reflexivity).
  repeat apply conj.
  - intros gb p lied w reason Hp.
    rewrite (check_label_eq _ _ _ _ _ _ Hp), Hsame, orb_true_r. reflexivity.
  - intros gb p lied w reason Hp.
    rewrite (check_label_eq _ _ _ _ _ _ Hp), Hskip, orb_false_r. reflexivity.
  - intros gb s e p flags w reason Hp. rewrite parent_body_eq.
    pose proof (eq_trans (eq_sym Hp) eq_refl) as Hp'.
    destruct (labels w !! p) as [[v r] |]; [| discriminate].
    inversion Hp'; subst v r. rewrite Hsame, orb_true_r. reflexivity.
  - intros gb s e p flags w reason Hp. rewrite parent_body_eq.
    pose proof (eq_trans (eq_sym Hp) eq_refl) as Hp'.
    destruct (labels w !! p) as [[v r] |]; [| discriminate].
    inversion Hp'; subst v r. rewrite Hskip, orb_false_r.
    destruct flags; reflexivity.
  - intros blamedRev gb s e w out e1 outcome w'. apply merge_report.
  - intros gb s e p flags w reason e1 Hp Htest. rewrite parent_body_eq.
    pose proof (eq_trans (eq_sym Hp) eq_refl) as Hp'.
    destruct (labels w !! p) as [[v r] |]; [discriminate |].
    rewrite Htest, Hskip, orb_false_r. reflexivity.
  - intros gb s e p flags w reason e1 Hp Htest. rewrite parent_body_eq.
    pose proof (eq_trans (eq_sym Hp) eq_refl) as Hp'.
    destruct (labels w !! p) as [[v r] |]; [discriminate |].
    rewrite Htest, Hsame, orb_true_r. reflexivity.
  - intros blamedRev gb s e w out e1 Hhg Hmerge Htests.
    assert (Hrun : exists outcome w',
               checkBlameParents blamedRev gb s e w = (inr outcome, w')).
    { unfold checkBlameParents, hg.
      rewrite (bind_ok _ _ _ _ _ (call_eq _ _ _ _ _ Hhg)).
      replace (length (parents_of_output out) =? 1)%nat with false
        by (symmetry; apply Nat.eqb_neq; lia).
      destruct (parents_loop_returns gb s e Htests (parents_of_output out)
                  (false, false)
                  (mkWorld e1 (labels w)
                           (trace w ++ [EvHg (parent_args blamedRev)])))
        as (flags & w2 & Hloop).
      rewrite (bind_ok _ _ _ _ _ Hloop).
      apply explain_returns; assumption. }
    destruct Hrun as (outcome & w' & Hrun).
    exists outcome, w'. split; [exact Hrun |].
    exact (merge_report _ _ _ _ _ _ _ _ _ Hhg Hmerge Hrun).
Qed.

End ControllerFacts.

(** * The properties on concrete sessions *)

Import Fixtures.

(** ** Where the stated claims and the code part *)

(** C4, as stated, fails on the first mark of a default session: the answer
    of [hg] names a revision to test next and the label is [good], yet the
    start of the range is returned as it was (and no candidate is returned),
    because [options.testInitialRevs] is still on. *)
Lemma first_mark_keeps_the_range :
  hg_run (Collaborators := nothing_builds) (mark_args good "e0") tt
    = (inr skip_line, tt) /\
  shape_of (collab := nothing_builds) skip_line = NextRevision "4f4c01fb42c3" /\
  bisectLabel (collab := nothing_builds) default_options good "e0" "s0" "e0"
              empty_world
    = (inr (None, None, None, "s0", "e0"),
       mkWorld tt ∅ [EvHg (mark_args good "e0")]).
Proof. repeat split. Qed.

(** C5, as stated, fails when the interestingness test raises: [inner] is
    left by the exception and the directory it made is still there. *)
Lemma scratch_left_when_test_raises :
  ExternalOracle.inner tmp_path plain_options failing_script [] "js" "abc" ∅
  = (inl (OtherError "OSError"), {["/tmp/abExtTestAndLabel-abc"]}).
Proof. vm_compute. reflexivity. Qed.

(** C8, as stated, fails on the untested parent [p2] of the merge [m0]:
    [p2] is an ancestor of the end [e0] of the session, so it is not true
    that it is an ancestor of neither endpoint; the flag is raised all the
    same, because neither endpoint is an ancestor of [p2]. *)
Lemma missed_flag_for_an_ancestor_of_end :
  labels world_at_blame !! "p2" = None /\
  isAncestor (Collaborators := merge_history) "p2" "e0" = true /\
  isAncestor (Collaborators := merge_history) "s0" "p2" = false /\
  isAncestor (Collaborators := merge_history) "e0" "p2" = false /\
  ensure_tested (collab := merge_history) "s0" "e0" "p2" false world_at_blame
    = (inr true,
       mkWorld tt (<["p2" := (bad, "Unknown exit code 7")]> labels_at_blame)
               [EvTestRev "p2"]).
Proof. vm_compute. repeat split. Qed.

(** C9, as stated, fails on the first mark of a default session: [hg]
    answers nothing while one endpoint is unmarked, no revision can be read
    from that, and [bisectLabel] returns without restoring the working copy
    and without raising. *)
Lemma first_mark_tolerates_unparsed_answer :
  hg_run (Collaborators := merge_history) (mark_args bad "e0") tt
    = (inr "", tt) /\
  shape_of (collab := merge_history) "" = Unparsed /\
  bisectLabel (collab := merge_history) default_options bad "e0" "s0" "e0"
              empty_world
    = (inr (None, None, None, "s0", "e0"),
       mkWorld tt ∅ [EvHg (mark_args bad "e0")]).
Proof. repeat split. Qed.

(** ** The theorems at work *)

(** The loop can also end before the skips run out: when [hg] gives up at
    the first mark, one test is all there is. *)
Example loop_ends_when_hg_gives_up :
  exists st',
    findBlamedCset_loop (collab := nothing_left) 21
      (loop_start plain_options "s0" "e0" (Some "4f4c01fb42c3")) empty_world
    = (inr (Some st'),
       mkWorld tt (<["4f4c01fb42c3" := (skip, "compilation failed")]> ∅)
               (skip_round "4f4c01fb42c3")) /\
    currRev st' = None /\ skipCount st' = 1.
Proof. eexists. repeat split. Qed.

(** With both parents free of the regression (one of them does not build
    and is labelled [skip]), the check tests the two parents and reports
    that the merge brought the regression. *)
Example merge_bug_is_reported :
  checkBlameParents (collab := merge_bug) "m0" first_bad "s0" "e0" empty_world
  = (inr IntroducedByMerge,
     mkWorld tt
       (<["p2" := (good, "Exit code 0")]>
          (<["p1" := (skip, "compilation failed")]> ∅))
       [EvHg (parent_args "m0"); EvTestRev "p1"; EvTestRev "p2"]).
Proof. reflexivity. Qed.

Lemma negative_exit_code_is_bad_witness :
  InternalOracle.internalTestAndLabel crashing_shell plain_options "js" "abc"
  = (bad, "Negative exit code -11").
Proof.
  refine (negative_exit_code_is_bad crashing_shell plain_options "js" "abc"
            "Segmentation fault" (-11) _ _ _ _); [reflexivity .. | lia].
Defined.

Lemma rejected_flag_is_good_witness :
  InternalOracle.internalTestAndLabel rejecting_shell assertion_options
    "js" "abc"
  = (good, "Exit code 1 or 2 - js shell quits because it does not support a given CLI parameter").
Proof.
  refine (rejected_flag_is_good rejecting_shell assertion_options "js" "abc"
            "usage: js [options] [[script] scriptArgs*]" 1 _ _ _ _ _ _).
  - reflexivity.
  - left. reflexivity.
  - discriminate.
  - reflexivity.
  - reflexivity.
  - left. vm_compute. discriminate.
Defined.

Lemma nothing_builds_always_skips : always_skips (collab := nothing_builds).
Proof. intros rev e. exists "compilation failed", e. reflexivity. Defined.

Lemma nothing_builds_always_proposes :
  always_proposes (collab := nothing_builds).
Proof.
  intros label rev e. exists skip_line, e, "4f4c01fb42c3".
  split; reflexivity.
Defined.

Lemma skip_overflow_stops_at_21_witness :
  exists st' w' tolerated last,
    findBlamedCset_loop (collab := nothing_builds) 21
      (loop_start default_options "s0" "e0" None) empty_world
      = (inr (Some st'), w') /\
    length tolerated = 20%nat /\
    trace w' = trace empty_world ++ concat (map skip_round tolerated)
                 ++ [EvTestRev last] /\
    skipCount st' = 21.
Proof.
  refine (proj2 (skip_overflow_stops_at_21 (collab := nothing_builds)
                   (loop_start default_options "s0" "e0" None) empty_world 21
                   _ _ _) _ _).
  - exact nothing_builds_always_skips.
  - reflexivity.
  - lia.
  - exact nothing_builds_always_proposes.
  - discriminate.
Defined.

Lemma range_after_next_revision_witness :
  exists start' end' w',
    bisectLabel (collab := nothing_builds) plain_options good "e0" "s0" "e0"
                empty_world
      = (inr (None, None, Some "4f4c01fb42c3", start', end'), w') /\
    (start' = "4f4c01fb42c3" /\ end' = "e0").
Proof.
  refine (range_after_next_revision (collab := nothing_builds) plain_options
            good "e0" "s0" "e0" empty_world skip_line tt "4f4c01fb42c3" _ _ _);
    reflexivity.
Defined.

Lemma scratch_removed_on_return_witness :
  tmp_path "abExtTestAndLabel-abc" ∅ ∉ (∅ : gset string).
Proof.
  refine (scratch_removed_on_return tmp_path plain_options
            (answering_script true) [] "js" "abc" ∅ (bad, "interesting") ∅ _).
  vm_compute. reflexivity.
Defined.

Lemma parents_against_blame_witness :
  exists outcome w',
    checkBlameParents (collab := merge_bug) "m0" first_bad "s0" "e0"
      empty_world = (inr outcome, w') /\
    (outcome = IntroducedByMerge <->
     forall p v reason,
       p ∈ parents_of_output "p1,p2," ->
       labels w' !! p = Some (v, reason) ->
       v <> bad).
Proof.
  refine (proj2 (proj2 (proj2 (proj2 (proj2 (proj2 (proj2
            (parents_against_blame (collab := merge_bug))))))))
            "m0" first_bad "s0" "e0" empty_world "p1,p2," tt _ _ _).
  - reflexivity.
  - vm_compute. lia.
  - intros p e. exists (label_in_merge_bug p), e. reflexivity.
Defined.

Lemma checkBlameParents_keeps_labels_witness :
  (forall k l,
      labels_at_blame !! k = Some l ->
      <["p2" := (bad, "Unknown exit code 7")]> labels_at_blame !! k = Some l) /\
  (forall k,
      labels_at_blame !! k = None ->
      <["p2" := (bad, "Unknown exit code 7")]> labels_at_blame !! k <> None ->
      exists out e1,
        hg_run (Collaborators := merge_history) (parent_args "m0") tt
          = (inr out, e1) /\
        k ∈ parents_of_output out).
Proof.
  refine (checkBlameParents_keeps_labels (collab := merge_history)
            "m0" first_bad "s0" "e0" world_at_blame
            (inr (MissedCommonAncestor "c0" (good, "Exit code 0")))
            (mkWorld tt
                     (<["p2" := (bad, "Unknown exit code 7")]> labels_at_blame)
                     [EvHg (parent_args "m0"); EvTestRev "p2"; EvTestRev "c0"])
            _).
  vm_compute. reflexivity.
Defined.

Lemma untested_parent_is_tested_witness :
  exists bisectLied',
    parent_body (collab := merge_history) first_bad "s0" "e0" "p2"
                (false, false) world_at_blame
    = (inr (bisectLied', true),
       mkWorld tt (<["p2" := (bad, "Unknown exit code 7")]> labels_at_blame)
               [EvTestRev "p2"]).
Proof.
  refine (untested_parent_is_tested (collab := merge_history) first_bad
            "s0" "e0" "p2" (false, false) world_at_blame
            (bad, "Unknown exit code 7") tt _ _); reflexivity.
Defined.

Lemma unparsed_answer_is_fatal_witness :
  exists exn w' later,
    bisectLabel (collab := merge_history) plain_options bad "e0" "s0" "e0"
                empty_world = (inl exn, w') /\
    trace w' = trace empty_world
                 ++ [EvHg (mark_args bad "e0");
                     EvHg ["update"; "-C"; "default"]] ++ later /\
    (forall o2 e2 e3,
        hg_run (Collaborators := merge_history) ["update"; "-C"; "default"] tt
          = (inr o2, e2) ->
        destroyPyc_run (Collaborators := merge_history) e2 = (inr tt, e3) ->
        exn = Exception "hg did not suggest a changeset to test!" /\
        later = [EvDestroyPyc]).
Proof.
  refine (unparsed_answer_is_fatal (collab := merge_history) plain_options bad
            "e0" "s0" "e0" empty_world "" tt _ _ _); reflexivity.
Defined.

Lemma oracles_never_skip_witness :
  (bad, "interesting") = (bad, "interesting") \/
  (bad, "interesting") = (good, "not interesting").
Proof.
  refine (proj2 (oracles_never_skip tmp_path (fun _ => answering_script true))
            plain_options ["test.py"; "--fast"]
            (ExternalOracle.inner tmp_path plain_options (answering_script true)
                                  ["--fast"])
            "js" "abc" ∅ (bad, "interesting") ∅ _ _).
  - reflexivity.
  - vm_compute. reflexivity.
Defined.

(** * Further properties of the code *)

(** ** Splitting and joining *)

Lemma has_append c a b : has c (a +:+ b) = has c a || has c b.
Proof.
  induction a as [| d a IH]; [reflexivity |].
  rewrite append_cons. cbn [has]. rewrite IH, orb_assoc. reflexivity.
Qed.

Lemma found_char s c : InternalOracle.found s (String c "") = has c s.
Proof.
  unfold InternalOracle.found, Py.find.
  assert (H : forall i, 0 <= i ->
            negb (Py.find_from i s (String c "") =? -1) = has c s).
  { induction s as [| d s IH]; intros i Hi; cbn [Py.find_from has].
    - reflexivity.
    - cbn [String.prefix]. destruct (ascii_dec c d) as [-> | Hne].
      + rewrite Ascii.eqb_refl.
        replace (String.prefix "" s) with true by (destruct s; reflexivity).
        cbn [orb]. apply negb_true_iff, Z.eqb_neq. lia.
      + replace (Ascii.eqb d c) with false
          by (symmetry; apply Ascii.eqb_neq; congruence).
        cbn [orb]. apply IH. lia. }
  apply H. lia.
Qed.

(** The parts of a split have no separator in them, and no character that
    the text did not have. *)
Lemma split_no_sep sep s :
  Forall (fun part => has sep part = false) (Py.split sep s).
Proof.
  induction s as [| c s IH]; cbn [Py.split].
  - repeat constructor.
  - destruct (Ascii.eqb c sep) eqn:Hc.
    + constructor; [reflexivity | exact IH].
    + destruct (Py.split sep s) as [| w ws]; [repeat constructor; cbn; now rewrite Hc |].
      inversion IH; subst. constructor; [| assumption].
      cbn [has]. rewrite Hc. assumption.
Qed.

Lemma split_parts_clean sep c s :
  has c s = false ->
  Forall (fun part => has c part = false) (Py.split sep s).
Proof.
  induction s as [| d s IH]; cbn [Py.split has]; intros H.
  - repeat constructor.
  - apply orb_false_iff in H as [Hd Hs]. specialize (IH Hs).
    destruct (Ascii.eqb d sep).
    + constructor; [reflexivity | exact IH].
    + destruct (Py.split sep s) as [| w ws];
        [repeat constructor; cbn; now rewrite Hd |].
      inversion IH; subst. constructor; [| assumption].
      cbn [has]. rewrite Hd. assumption.
Qed.

Lemma append_assoc3 a b c : (a +:+ b) +:+ c = a +:+ (b +:+ c).
Proof.
  induction a as [| d a IH]; [reflexivity |].
  rewrite !append_cons, IH. reflexivity.
Qed.

Lemma concat_cons2 sep x y l :
  String.concat sep (x :: y :: l) = x +:+ sep +:+ String.concat sep (y :: l).
Proof. reflexivity. Qed.

(** [sep.join(s.split(sep)) == s] *)
Lemma join_split sep s :
  String.concat (String sep "") (Py.split sep s) = s.
Proof.
  induction s as [| c s IH]; cbn [Py.split]; [reflexivity |].
  destruct (split_cons sep s) as (w & ws & Hs). rewrite Hs in *.
  destruct (Ascii.eqb c sep) eqn:Hc.
  - apply Ascii.eqb_eq in Hc as ->. rewrite concat_cons2, IH. reflexivity.
  - destruct ws as [| w' ws].
    + cbn in *. congruence.
    + rewrite concat_cons2 in *. rewrite append_cons. congruence.
Qed.

(** [sep.join(l).split(sep) == l] for parts without the separator. *)
Lemma split_join sep l :
  l <> [] ->
  Forall (fun part => has sep part = false) l ->
  Py.split sep (String.concat (String sep "") l) = l.
Proof.
  assert (Hone : forall w, has sep w = false -> Py.split sep w = [w]).
  { induction w as [| c w IH]; cbn [Py.split has]; [reflexivity |].
    intros H. apply orb_false_iff in H as [Hc Hw].
    rewrite Hc, (IH Hw). reflexivity. }
  assert (Hmore : forall w rest, has sep w = false ->
            Py.split sep (w +:+ String sep rest) = w :: Py.split sep rest).
  { induction w as [| c w IH]; intros rest H.
    - change ("" +:+ String sep rest) with (String sep rest).
      cbn [Py.split]. rewrite Ascii.eqb_refl. reflexivity.
    - cbn [has] in H. apply orb_false_iff in H as [Hc Hw].
      rewrite append_cons. cbn [Py.split]. rewrite Hc, (IH _ Hw).
      reflexivity. }
  induction l as [| x l IH]; intros Hne Hall; [congruence |].
  inversion Hall; subst. destruct l as [| y l].
  - cbn. apply Hone. assumption.
  - rewrite concat_cons2.
    change (String sep "" +:+ String.concat (String sep "") (y :: l))
      with (String sep (String.concat (String sep "") (y :: l))).
    rewrite Hmore by assumption. f_equal. apply IH; [discriminate | assumption].
Qed.

Lemma concat_clean c sep l :
  has c sep = false ->
  Forall (fun part => has c part = false) l ->
  has c (String.concat sep l) = false.
Proof.
  intros Hsep Hall. induction l as [| x l IH]; [reflexivity |].
  inversion Hall; subst. destruct l as [| y l]; [assumption |].
  rewrite concat_cons2, !has_append, Hsep, IH by assumption.
  rewrite H1. reflexivity.
Qed.

(** A list that is not empty, joined: all but the last part, then the
    separator unless there is no other part, then the last part. *)
Lemma concat_last sep l :
  l <> [] ->
  String.concat sep l =
  String.concat sep (removelast l)
    +:+ (match removelast l with [] => "" | _ => sep end)
    +:+ List.last l "".
Proof.
  induction l as [| x l IH]; intros Hne; [congruence |].
  destruct l as [| y l]; [reflexivity |].
  rewrite concat_cons2, IH by discriminate.
  change (removelast (x :: y :: l)) with (x :: removelast (y :: l)).
  change (List.last (x :: y :: l) "") with (List.last (y :: l) "").
  destruct (removelast (y :: l)) as [| z zs] eqn:Hr.
  - cbn. reflexivity.
  - rewrite concat_cons2, !append_assoc3. reflexivity.
Qed.

(** ** Sanitizing a changeset message *)

Lemma Forall_removelast {A} (P : A -> Prop) (l : list A) :
  Forall P l -> Forall P (removelast l).
Proof.
  induction 1 as [| x l Hx Hl IH]; [constructor |].
  destruct l; [constructor |]. cbn. constructor; assumption.
Qed.

Lemma Forall_last (P : string -> Prop) (l : list string) :
  l <> [] -> Forall P l -> P (List.last l "").
Proof.
  induction l as [| x l IH]; intros Hne Hall; [congruence |].
  inversion Hall; subst. destruct l; [assumption |].
  apply IH; [discriminate | assumption].
Qed.

Lemma split_not_nil sep s : Py.split sep s <> [].
Proof. destruct (split_cons sep s) as (w & ws & ->). discriminate. Qed.

(** A text cut at its last separator: either it has none, or it is what is
    before the last separator, the separator, and a last part without one. *)
Lemma split_at_last sep s :
  (has sep s = false /\ Py.split sep s = [s]) \/
  (removelast (Py.split sep s) <> [] /\
   has sep (List.last (Py.split sep s) "") = false /\
   s = String.concat (String sep "") (removelast (Py.split sep s))
         +:+ String sep "" +:+ List.last (Py.split sep s) "").
Proof.
  pose proof (join_split sep s) as Hjoin.
  pose proof (split_no_sep sep s) as Hparts.
  pose proof (split_not_nil sep s) as Hne.
  rewrite (concat_last _ _ Hne) in Hjoin.
  destruct (removelast (Py.split sep s)) as [| x xs] eqn:Hr.
  - left.
    assert (Hs : Py.split sep s = [s]).
    { destruct (Py.split sep s) as [| w [| w' ws]]; [congruence | |].
      - change (w = s) in Hjoin. congruence.
      - cbn in Hr. destruct ws; discriminate. }
    rewrite Hs in Hparts. inversion Hparts; subst. split; assumption.
  - right. split; [discriminate |]. split.
    + apply (Forall_last (fun part => has sep part = false)); assumption.
    + symmetry. exact Hjoin.
Qed.

(** A sanitized line has no line feed if the line had none. *)
Lemma sanitize_line_clean repo line :
  has Py.LF line = false -> has Py.LF (sanitize_line repo line) = false.
Proof.
  intros Hline. unfold sanitize_line.
  destruct (_ && _ && _).
  - apply concat_clean; [reflexivity |].
    apply Forall_removelast, split_parts_clean, Hline.
  - destruct (_ && _); [| exact Hline].
    rewrite has_append. apply orb_false_iff. split; [reflexivity |].
    apply (Forall_last (fun part => has Py.LF part = false));
      [apply split_not_nil | apply split_parts_clean, Hline].
Qed.

(** X1: [sanitizeCsetMsg] works line by line: the lines of its result are
    the sanitized lines of the message, one for one. *)
Theorem sanitizeCsetMsg_lines msg repo :
  Py.split Py.LF (sanitizeCsetMsg msg repo)
  = map (sanitize_line repo) (Py.split Py.LF msg).
Proof.
  unfold sanitizeCsetMsg, NL. apply split_join.
  - destruct (split_cons Py.LF msg) as (w & ws & ->). discriminate.
  - pose proof (split_no_sep Py.LF msg) as Hparts.
    induction Hparts as [| line l Hline _ IH]; cbn [map]; constructor;
      [apply sanitize_line_clean, Hline | exact IH].
Qed.

(** X2: a message without ["@"], for a repository whose path does not
    have [mozilla-central] in it, is returned as it is. *)
Theorem sanitizeCsetMsg_unchanged msg repo :
  has "@" msg = false ->
  InternalOracle.found repo "mozilla-central" = false ->
  sanitizeCsetMsg msg repo = msg.
Proof.
  intros Hat Hrepo. unfold sanitizeCsetMsg, NL.
  rewrite <- (join_split Py.LF msg) at 2. f_equal.
  pose proof (split_parts_clean Py.LF "@" msg Hat) as Hparts.
  induction Hparts as [| line l Hline _ IH]; [reflexivity |].
  cbn [map]. rewrite IH. f_equal.
  unfold sanitize_line. rewrite (found_char line "@"), Hline, Hrepo.
  rewrite !andb_false_r. reflexivity.
Qed.

(** X3: a line that has ["<"], ["@"] and [">"] is cut at its last space:
    what is left is the line without its last word and the space before it,
    and nothing at all when the line has no space. *)
Theorem sanitize_line_drops_last_word repo line :
  InternalOracle.found line "<" = true ->
  InternalOracle.found line "@" = true ->
  InternalOracle.found line ">" = true ->
  (has SP line = false /\ sanitize_line repo line = "") \/
  (exists word,
      has SP word = false /\
      line = sanitize_line repo line +:+ " " +:+ word).
Proof.
  intros Hlt Hat Hgt. unfold sanitize_line. rewrite Hlt, Hat, Hgt.
  cbn [andb]. unfold Py.drop_last.
  destruct (split_at_last SP line) as [[Hnone Hone] | (Hne & Hlast & Hline)].
  - left. rewrite Hone. split; [exact Hnone | reflexivity].
  - right. exists (List.last (Py.split SP line) ""). split; assumption.
Qed.

(** X4: for a repository whose path has [mozilla-central] in it, a line
    that starts with [changeset:] and is not cut as above becomes the link
    to the revision: the address, then what follows the last colon of the
    line. *)
Theorem sanitize_line_links_changeset repo line :
  InternalOracle.found line "<" && InternalOracle.found line "@"
    && InternalOracle.found line ">" = false ->
  String.prefix "changeset:" line = true ->
  InternalOracle.found repo "mozilla-central" = true ->
  exists before node,
    has ":" node = false /\
    line = before +:+ ":" +:+ node /\
    sanitize_line repo line
    = "changeset:   https://hg.mozilla.org/mozilla-central/rev/" +:+ node.
Proof.
  intros Hmail Hpre Hrepo. unfold sanitize_line, last_part.
  rewrite Hmail, Hpre, Hrepo. cbn [andb].
  destruct (split_at_last ":" line) as [[Hnone _] | (_ & Hlast & Hline)].
  - exfalso. apply prefix_spec in Hpre as [post ->].
    rewrite has_append in Hnone. discriminate.
  - eexists _, _. split; [exact Hlast |]. split; [exact Hline | reflexivity].
Qed.

(** ** The internal oracle, configuration by configuration *)

Ltac to_props :=
  repeat match goal with
    | H : _ && _ = true |- _ => apply andb_true_iff in H as [? ?]
    | H : _ && _ = false |- _ => apply andb_false_iff in H
    | H : _ || _ = true |- _ => apply orb_true_iff in H
    | H : _ || _ = false |- _ => apply orb_false_iff in H as [? ?]
    | H : negb _ = true |- _ => apply negb_true_iff in H
    | H : negb _ = false |- _ => apply negb_false_iff in H
    | H : (_ <=? _) = true |- _ => apply Z.leb_le in H
    | H : (_ <=? _) = false |- _ => apply Z.leb_gt in H
    | H : (_ <? _) = true |- _ => apply Z.ltb_lt in H
    | H : (_ <? _) = false |- _ => apply Z.ltb_ge in H
    | H : (_ =? _) = true |- _ => apply Z.eqb_eq in H
    | H : (_ =? _) = false |- _ => apply Z.eqb_neq in H
    | H : _ \/ _ |- _ => destruct H
    end.

Section InternalOracleByConfiguration.

Import InternalOracle.

Variable testBinary : string -> list string -> bool -> string * Z.

(** X5: with no output filter and no watched exit code, the shell is
    labelled good exactly when it exits with 0, 3, 4, 5 or 6; any other exit
    code, the negative ones included, is bad. *)
Theorem default_good_exit_codes options shellFilename hgHash out e :
  testBinary shellFilename (runtime_params options) (runWithVg options)
    = (out, e) ->
  output options = "" ->
  watchExitCode options = None ->
  (fst (internalTestAndLabel testBinary options shellFilename hgHash) = good
   <-> e = 0 \/ 3 <= e <= 6).
Proof.
  intros Hrun Hout Hwatch. unfold internalTestAndLabel. rewrite Hrun.
  unfold classify. rewrite Hout, Hwatch.
  cbn [watched watched_other is_None negb andb String.eqb].
  rewrite !andb_false_r. cbn [andb].
  repeat match goal with
    | |- context [if ?c then _ else _] => destruct c eqn:?
    end;
  cbn [fst]; to_props; split; intros Hgoal; first [discriminate | lia | reflexivity].
Qed.

(** X6: with an output filter and no watched exit code, the shell is
    labelled bad exactly when the output has the filter in it, or the exit
    code is 7 or more, or the exit code is 1 or 2 and the output has none of
    the marks of a rejected flag. A negative exit code without the filter
    in the output is good. *)
Theorem filtered_bad_runs options shellFilename hgHash out e :
  testBinary shellFilename (runtime_params options) (runWithVg options)
    = (out, e) ->
  output options <> "" ->
  watchExitCode options = None ->
  (fst (internalTestAndLabel testBinary options shellFilename hgHash) = bad
   <-> found out (output options) = true \/
       7 <= e \/
       (1 <= e <= 2 /\
        found out "usage: js [" = false /\
        found out "Error: Short option followed by junk" = false /\
        found out "Error: Invalid long option:" = false /\
        found out "Error: Invalid short option:" = false)).
Proof.
  intros Hrun Hout Hwatch. unfold internalTestAndLabel. rewrite Hrun.
  unfold classify. rewrite Hwatch.
  assert (Hne : String.eqb (output options) "" = false)
    by (apply String.eqb_neq; exact Hout).
  rewrite Hne. cbn [watched watched_other is_None negb andb].
  rewrite !andb_true_r.
  destruct (found out (output options)) eqn:Hfound; cbn [negb].
  { cbn [fst]. split; auto. }
  repeat match goal with
    | |- context [if ?c then _ else _] => destruct c eqn:?
    end;
  cbn [fst]; to_props; split; intros Hgoal;
    first [discriminate | reflexivity | lia
          | solve [intuition (try lia; try congruence)]].
Qed.

(** X7: with a watched exit code [w], the shell is labelled bad exactly
    when the output has the filter in it (if one is set), or the exit code
    is [w], or the exit code is negative and [128 - exit code] is [w]. *)
Theorem watched_bad_runs options shellFilename hgHash out e w :
  testBinary shellFilename (runtime_params options) (runWithVg options)
    = (out, e) ->
  watchExitCode options = Some w ->
  (fst (internalTestAndLabel testBinary options shellFilename hgHash) = bad
   <-> (found out (output options) = true /\ output options <> "") \/
       e = w \/
       (e < 0 /\ 128 - e = w)).
Proof.
  intros Hrun Hwatch. unfold internalTestAndLabel. rewrite Hrun.
  unfold classify. rewrite Hwatch.
  cbn [watched watched_other is_None negb andb].
  destruct (String.eqb (output options) "") eqn:Hout;
    [apply String.eqb_eq in Hout | apply String.eqb_neq in Hout];
    destruct (found out (output options)) eqn:Hfound; cbn [negb andb];
    repeat match goal with
      | |- context [if ?c then _ else _] => destruct c eqn:?
      end;
    cbn [fst]; to_props; split; intros Hgoal;
    first [discriminate | reflexivity | lia
          | solve [intuition (try lia; try congruence)]].
Qed.

End InternalOracleByConfiguration.

(** ** More on [bisectLabel] *)

Section MoreControllerFacts.

Context {E : Type} {collab : Collaborators E}.

Implicit Types (w : World E) (rev : Rev) (args : list string).

(** X8: a call of [bisectLabel] that returns has run one command, the mark
    of the revision, and has left the labels as they were; the working copy
    is only ever updated on the way to an exception. *)
Theorem bisectLabel_marks_once options hgLabel rev startRepo endRepo w
    result w' :
  bisectLabel options hgLabel rev startRepo endRepo w = (inr result, w') ->
  labels w' = labels w /\
  trace w' = trace w ++ [EvHg (mark_args hgLabel rev)].
Proof.
  intros H.
  destruct (hg_run (mark_args hgLabel rev) (ext w)) as [[exn | out] e1] eqn:Hhg.
  { unfold bisectLabel, hg in H.
    rewrite (bind_raise _ _ _ _ _ (call_eq _ _ _ _ _ Hhg)) in H.
    discriminate. }
  rewrite (bisectLabel_after_mark _ _ _ _ _ _ _ _ Hhg) in H.
  destruct (shape_of out) as [| gb | candidate |].
  - inversion H; subst. split; reflexivity.
  - destruct (Py.split Py.LF out !! 1%nat); inversion H; subst.
    split; reflexivity.
  - destruct (testInitialRevs options); inversion H; subst; split; reflexivity.
  - destruct (testInitialRevs options).
    + inversion H; subst. split; reflexivity.
    + exfalso. unfold bind, hg, destroyPyc, call, raise in H.
      cbn [ext labels trace] in H.
      destruct (hg_run _ e1) as [[x2 | o2] e2]; [discriminate |].
      cbn [ext labels trace] in H.
      destruct (destroyPyc_run e2) as [[x3 | []] e3]; discriminate.
Qed.

(** X9: when [hg] answers that the first good or bad revision is found,
    [bisectLabel] reads the revision from the second line of the answer,
    also while [options.testInitialRevs] is on, and returns no candidate
    and the range as it was; an answer of one line makes it raise
    [IndexError]. *)
Theorem bisectLabel_first_found options hgLabel rev startRepo endRepo w
    out e1 which :
  hg_run (mark_args hgLabel rev) (ext w) = (inr out, e1) ->
  shape_of out = FirstFound which ->
  let w1 := mkWorld e1 (labels w) (trace w ++ [EvHg (mark_args hgLabel rev)]) in
  (forall line1,
      Py.split Py.LF out !! 1%nat = Some line1 ->
      bisectLabel options hgLabel rev startRepo endRepo w
      = (inr (Some which, get_cset_hash_from_bisect_msg line1, None,
              startRepo, endRepo), w1)) /\
  (has Py.LF out = false ->
   bisectLabel options hgLabel rev startRepo endRepo w = (inl IndexError, w1)).
Proof.
  intros Hhg Hshape w1.
  rewrite (bisectLabel_after_mark _ _ _ _ _ _ _ _ Hhg), Hshape. split.
  - intros line1 ->. reflexivity.
  - intros Hone.
    assert (Hs : Py.split Py.LF out = [out]).
    { destruct (split_at_last Py.LF out) as [[_ Hs] | (Hne & _ & Hcut)];
        [exact Hs |].
      exfalso. rewrite Hcut, !has_append in Hone.
      cbn in Hone. rewrite orb_true_r in Hone. discriminate. }
    rewrite Hs. reflexivity.
Qed.

(** ** More on the loop of [findBlamedCset] *)

Lemma bisectLabel_labels options hgLabel rev startRepo endRepo w r w' :
  bisectLabel options hgLabel rev startRepo endRepo w = (r, w') ->
  labels w' = labels w.
Proof.
  intros H.
  destruct (hg_run (mark_args hgLabel rev) (ext w)) as [[exn | out] e1] eqn:Hhg.
  { unfold bisectLabel, hg in H.
    rewrite (bind_raise _ _ _ _ _ (call_eq _ _ _ _ _ Hhg)) in H.
    inversion H; reflexivity. }
  rewrite (bisectLabel_after_mark _ _ _ _ _ _ _ _ Hhg) in H.
  destruct (shape_of out) as [| gb | candidate |].
  - inversion H; reflexivity.
  - destruct (Py.split Py.LF out !! 1%nat); inversion H; reflexivity.
  - destruct (testInitialRevs options); inversion H; reflexivity.
  - destruct (testInitialRevs options); [inversion H; reflexivity |].
    unfold bind, hg, destroyPyc, call, raise in H.
    cbn [ext labels trace] in H.
    destruct (hg_run _ e1) as [[x2 | o2] e2]; [inversion H; reflexivity |].
    cbn [ext labels trace] in H.
    destruct (destroyPyc_run e2) as [[x3 | []] e3]; inversion H; reflexivity.
Qed.

(** A call that returns no candidate returns the range as it was. *)
Lemma bisectLabel_no_candidate options hgLabel rev startRepo endRepo w
    which found start' end' w' :
  bisectLabel options hgLabel rev startRepo endRepo w
    = (inr (which, found, None, start', end'), w') ->
  start' = startRepo /\ end' = endRepo.
Proof.
  intros H.
  destruct (hg_run (mark_args hgLabel rev) (ext w)) as [[exn | out] e1] eqn:Hhg.
  { unfold bisectLabel, hg in H.
    rewrite (bind_raise _ _ _ _ _ (call_eq _ _ _ _ _ Hhg)) in H.
    discriminate. }
  rewrite (bisectLabel_after_mark _ _ _ _ _ _ _ _ Hhg) in H.
  destruct (shape_of out) as [| gb | candidate |].
  - inversion H; auto.
  - destruct (Py.split Py.LF out !! 1%nat); inversion H; auto.
  - destruct (testInitialRevs options); inversion H; auto.
  - destruct (testInitialRevs options); [inversion H; auto |].
    exfalso. unfold bind, hg, destroyPyc, call, raise in H.
    cbn [ext labels trace] in H.
    destruct (hg_run _ e1) as [[x2 | o2] e2]; [discriminate |].
    cbn [ext labels trace] in H.
    destruct (destroyPyc_run e2) as [[x3 | []] e3]; discriminate.
Qed.

(** X10: the round that is run while [options.testInitialRevs] is on, the
    first of a default session, goes on with the start of the range as the
    next revision to test unless it ends the loop by skip overflow, whatever
    [hg] answered to the mark: the range is as it was, the flag is cleared,
    and the assertion that no candidate was returned holds. *)
Theorem first_round_goes_to_start rev label st w stop st' w' :
  testInitialRevs (options st) = true ->
  round_after_test rev label st w = (inr (stop, st'), w') ->
  stop = false ->
  currRev st' = Some (sRepo st) /\
  sRepo st' = sRepo st /\ eRepo st' = eRepo st /\
  testInitialRevs (options st') = false /\
  iterNum st' = iterNum st + 1.
Proof.
  intros Hon H Hgo. unfold round_after_test in H.
  destruct (verdict_eqb (fst label) skip && _).
  { inversion H; subst. discriminate. }
  apply bind_inv in H as [(v5 & w1 & H1 & H2) | (exn & _ & Hexn)];
    [| discriminate].
  destruct v5 as [[[[gb brev] cur] s'] e']. rewrite Hon in H2.
  destruct cur as [candidate |].
  { unfold bind, raise in H2. discriminate. }
  apply bisectLabel_no_candidate in H1 as [-> ->].
  unfold bind, ret in H2. inversion H2; subst. cbn. auto.
Qed.

Lemma round_after_test_world rev label st w r w' :
  round_after_test rev label st w = (r, w') ->
  labels w' = labels w /\
  exists new, trace w' = trace w ++ new /\ tests_in new = 0%nat.
Proof.
  unfold round_after_test. destruct (verdict_eqb (fst label) skip && _).
  { intros H. inversion H; subst. split; [reflexivity |].
    exists []. rewrite app_nil_r. auto. }
  intros H.
  apply bind_inv in H as [(v5 & w1 & H1 & H2) | (exn & H1 & ->)].
  - pose proof (bisectLabel_labels _ _ _ _ _ _ _ _ H1) as Hl.
    apply quiet_bisectLabel in H1 as Hq.
    destruct v5 as [[[[gb brev] cur] s'] e'].
    assert (w' = w1) as ->; [| auto].
    unfold bind, ret, raise in H2.
    destruct (testInitialRevs (options st)); [destruct cur |];
      inversion H2; reflexivity.
  - split; [eapply bisectLabel_labels | eapply quiet_bisectLabel]; exact H1.
Qed.

Lemma no_tests_in new rev : tests_in new = 0%nat -> ~ In (EvTestRev rev) new.
Proof.
  unfold tests_in. intros Hlen Hin.
  assert (Hf : In (EvTestRev rev) (List.filter is_test new))
    by (apply List.filter_In; split; [exact Hin | reflexivity]).
  destruct (List.filter is_test new); [inversion Hf | discriminate].
Qed.

(** X11: when the loop is over without an exception, every revision that
    it tested has a label, and no revision that had a label has lost it. *)
Theorem loop_labels_what_it_tests fuel : forall st w result w',
  findBlamedCset_loop fuel st w = (inr result, w') ->
  exists new,
    trace w' = trace w ++ new /\
    (forall rev, In (EvTestRev rev) new -> labels w' !! rev <> None) /\
    (forall rev, labels w !! rev <> None -> labels w' !! rev <> None).
Proof.
  induction fuel as [| fuel IH]; intros st w result w' H;
    cbn [findBlamedCset_loop] in H;
    destruct (currRev st) as [rev |] eqn:Hcur.
  1, 2, 4: inversion H; subst; exists []; rewrite app_nil_r;
           (split; [reflexivity | split; [intros ? [] | auto]]).
  apply bind_inv in H as [([stop st1] & w2 & Hbody & Hrest) | (exn & _ & Hexn)];
    [| discriminate].
  unfold loop_body, run_testRev in Hbody.
  apply bind_inv in Hbody as [(label & w0 & Htest & Hbody) | (exn & _ & Hexn)];
    [| discriminate].
  pose proof (call_labels _ _ _ _ _ Htest) as Hl0.
  pose proof (call_trace _ _ _ _ _ Htest) as Ht0.
  rewrite (bind_ok _ _ _ tt
             (mkWorld (ext w0) (<[rev := label]> (labels w0)) (trace w0)))
    in Hbody by reflexivity.
  apply round_after_test_world in Hbody as (Hl2 & new2 & Ht2 & Hn2).
  cbn [labels trace] in Hl2, Ht2.
  assert (Hkeep2 : forall k, labels w !! k <> None -> labels w2 !! k <> None).
  { intros k Hk. rewrite Hl2, Hl0.
    destruct (decide (rev = k)) as [-> | Hne];
      [rewrite lookup_insert_eq; discriminate |].
    rewrite lookup_insert_ne by exact Hne. exact Hk. }
  assert (Hrev2 : labels w2 !! rev <> None)
    by (rewrite Hl2, lookup_insert_eq; discriminate).
  assert (Htests2 : forall r, In (EvTestRev r) ([EvTestRev rev] ++ new2) ->
                              labels w2 !! r <> None).
  { intros r [Heq | Hin]; [inversion Heq; subst; exact Hrev2 |].
    exfalso. eapply no_tests_in; eassumption. }
  destruct stop.
  - inversion Hrest; subst. exists ([EvTestRev rev] ++ new2).
    split; [rewrite Ht2, Ht0, <- app_assoc; reflexivity |].
    split; [exact Htests2 | exact Hkeep2].
  - apply IH in Hrest as (new3 & Ht3 & Htests3 & Hkeep3).
    exists (([EvTestRev rev] ++ new2) ++ new3).
    split; [rewrite Ht3, Ht2, Ht0, <- !app_assoc; reflexivity |].
    split; [| intros r Hr; apply Hkeep3, Hkeep2, Hr].
    intros r Hin. apply in_app_or in Hin as [Hin | Hin];
      [apply Hkeep3, Htests2, Hin | apply Htests3, Hin].
Qed.

(** X12: a session that completes ends with the three calls of the
    cleanup, in this order: [hg bisect -U -r], [hg update -C -r default] and
    [destroyPyc], whether a revision was blamed or not. *)
Theorem session_ends_with_cleanup fuel realStartRepo realEndRepo st w w' :
  findBlamedCset_from fuel realStartRepo realEndRepo st w
    = (inr (Some tt), w') ->
  exists before,
    trace w' = before ++ [EvHg ["bisect"; "-U"; "-r"];
                          EvHg ["update"; "-C"; "-r"; "default"];
                          EvDestroyPyc].
Proof.
  unfold findBlamedCset_from. intros H.
  apply bind_inv in H as [(r & w1 & _ & H) | (exn & _ & Hexn)];
    [| discriminate].
  destruct r as [st1 |]; [| discriminate].
  apply bind_inv in H as [([] & w2 & Hfin & Hret) | (exn & _ & Hexn)];
    [| discriminate].
  inversion Hret; subst w2. clear Hret.
  unfold findBlamedCset_finish in Hfin.
  apply bind_inv in Hfin as [([] & w3 & _ & Hfin) | (exn & _ & Hexn)];
    [| discriminate].
  apply bind_inv in Hfin as [(o4 & w4 & H4 & Hfin) | (exn & _ & Hexn)];
    [| discriminate].
  apply bind_inv in Hfin as [(o5 & w5 & H5 & H6) | (exn & _ & Hexn)];
    [| discriminate].
  apply call_trace in H4, H5, H6.
  exists (trace w3). rewrite H6, H5, H4, <- !app_assoc. reflexivity.
Qed.

(** X13: when the test of the candidate raises, the session ends at once
    with that exception: no label is recorded, nothing is told to [hg], and
    neither the state of [hg bisect] nor the working copy is reset. *)
Theorem failing_test_ends_session fuel realStartRepo realEndRepo st w rev
    exn e1 :
  currRev st = Some rev ->
  testRev rev (ext w) = (inl exn, e1) ->
  findBlamedCset_from (S fuel) realStartRepo realEndRepo st w
  = (inl exn, mkWorld e1 (labels w) (trace w ++ [EvTestRev rev])).
Proof.
  intros Hcur Htest. unfold findBlamedCset_from.
  apply bind_raise. rewrite (loop_round _ _ _ _ Hcur).
  unfold loop_body, run_testRev.
  rewrite (bind_raise _ _ _ _ _ (call_eq _ _ _ _ _ Htest)). reflexivity.
Qed.

(** ** More on [checkBlameParents] *)

(** X15: when [hg] lists at most one parent for the blamed revision, no
    revision is tested and no label changes: with one parent nothing is
    reported, and with none (an answer without a comma, as for a root
    revision) the report is still that a merge introduced the bug. *)
Theorem blame_check_without_merge blamedRev blamedGoodOrBad startRepo endRepo
    w out e1 :
  hg_run (parent_args blamedRev) (ext w) = (inr out, e1) ->
  (length (parents_of_output out) <= 1)%nat ->
  checkBlameParents blamedRev blamedGoodOrBad startRepo endRepo w
  = (inr (if (length (parents_of_output out) =? 1)%nat
          then NotAMerge else IntroducedByMerge),
     mkWorld e1 (labels w) (trace w ++ [EvHg (parent_args blamedRev)])).
Proof.
  intros Hhg Hfew. unfold checkBlameParents, hg.
  rewrite (bind_ok _ _ _ _ _ (call_eq _ _ _ _ _ Hhg)).
  destruct (parents_of_output out) as [| p [| q l]]; [| | cbn in Hfew; lia];
    reflexivity.
Qed.

(** X16: after a call that returns for a blamed revision that does not
    have exactly one parent, every parent that [hg] listed has a label. *)
Theorem blame_check_labels_parents blamedRev blamedGoodOrBad startRepo endRepo
    w out e1 outcome w' :
  hg_run (parent_args blamedRev) (ext w) = (inr out, e1) ->
  length (parents_of_output out) <> 1%nat ->
  checkBlameParents blamedRev blamedGoodOrBad startRepo endRepo w
    = (inr outcome, w') ->
  forall p, p ∈ parents_of_output out -> labels w' !! p <> None.
Proof.
  intros Hhg Hmerge Hrun. unfold checkBlameParents, hg in Hrun.
  rewrite (bind_ok _ _ _ _ _ (call_eq _ _ _ _ _ Hhg)) in Hrun.
  replace (length (parents_of_output out) =? 1)%nat with false in Hrun
    by (symmetry; apply Nat.eqb_neq; exact Hmerge).
  apply bind_inv in Hrun as [(flags & w2 & Hloop & Hexp) | (exn & _ & Hexn)];
    [| discriminate].
  apply parents_loop_flags in Hloop as (_ & _ & Hall).
  apply explain_labels in Hexp. rewrite Hexp. exact Hall.
Qed.



Lemma filter_length_le {A} (f g : A -> bool) (l : list A) :
  (forall x, f x = true -> g x = true) ->
  (length (List.filter f l) <= length (List.filter g l))%nat.
Proof.
  intros Himp. induction l as [| x l IH]; [reflexivity |]. cbn.
  destruct (f x) eqn:Hf.
  - rewrite (Himp _ Hf). cbn. lia.
  - destruct (g x); cbn; lia.
Qed.

(** The loop over the parents makes at most one test for each parent that
    came without a label, however it ends. *)
Lemma parents_loop_tests blamedGoodOrBad startRepo endRepo parents :
  forall flags w r w',
  for_each (parent_body blamedGoodOrBad startRepo endRepo) parents flags w
    = (r, w') ->
  exists new,
    trace w' = trace w ++ new /\
    (tests_in new
     <= length (List.filter
                  (fun p => InternalOracle.is_None (labels w !! p)) parents))%nat.
Proof.
  induction parents as [| p parents IH]; intros flags w r w' H.
  - inversion H; subst. exists []. rewrite app_nil_r. split; [reflexivity |].
    cbn. lia.
  - cbn [for_each] in H.
    assert (Hmono : forall w1,
               (forall k l, labels w !! k = Some l -> labels w1 !! k = Some l) ->
               (length (List.filter
                          (fun q => InternalOracle.is_None (labels w1 !! q))
                          parents)
                <= length (List.filter
                             (fun q => InternalOracle.is_None (labels w !! q))
                             parents))%nat).
    { intros w1 Hkeep. apply filter_length_le. intros q Hq.
      destruct (labels w !! q) as [l |] eqn:Hl; [| reflexivity].
      pose proof (Hkeep _ _ Hl) as Hl1.
      destruct (labels w1 !! q); [discriminate Hq | discriminate Hl1]. }
    apply bind_inv in H as [(flags1 & w1 & H1 & H2) | (exn & H1 & ->)].
    + pose proof (parent_body_labels _ _ _ _ _ _ _ _ H1) as [Hkeep _].
      apply IH in H2 as (new2 & Ht2 & Hn2). specialize (Hmono w1 Hkeep).
      rewrite parent_body_eq in H1. cbn [List.filter].
      destruct (labels w !! p) as [[v reason] |] eqn:Hp; cbn [InternalOracle.is_None].
      * inversion H1; subst. exists new2. split; [exact Ht2 | lia].
      * destruct (testRev p (ext w)) as [[exn | [v reason]] e1];
          inversion H1; subst. cbn [trace labels] in *.
        exists ([EvTestRev p] ++ new2).
        split; [rewrite Ht2, <- app_assoc; reflexivity |].
        rewrite tests_in_app. cbn. lia.
    + rewrite parent_body_eq in H1. cbn [List.filter].
      destruct (labels w !! p) as [[v reason] |] eqn:Hp; [discriminate |].
      destruct (testRev p (ext w)) as [[exn' | [v reason]] e1];
        inversion H1; subst. cbn [trace InternalOracle.is_None].
      exists [EvTestRev p]. split; [reflexivity |]. cbn. lia.
Qed.

(** X18: however it ends, [checkBlameParents] makes at most one test for
    each listed parent that came without a label, and one more, that of the
    common ancestor. *)
Theorem blame_check_cost blamedRev blamedGoodOrBad startRepo endRepo
    w out e1 r w' :
  hg_run (parent_args blamedRev) (ext w) = (inr out, e1) ->
  checkBlameParents blamedRev blamedGoodOrBad startRepo endRepo w = (r, w') ->
  exists new,
    trace w' = trace w ++ new /\
    (tests_in new
     <= length (List.filter
                  (fun p => InternalOracle.is_None (labels w !! p))
                  (parents_of_output out)) + 1)%nat.
Proof.
  intros Hhg Hrun. unfold checkBlameParents, hg in Hrun.
  rewrite (bind_ok _ _ _ _ _ (call_eq _ _ _ _ _ Hhg)) in Hrun.
  destruct (length (parents_of_output out) =? 1)%nat.
  { inversion Hrun; subst. cbn [trace]. eexists. split; [reflexivity |].
    cbn. lia. }
  apply bind_inv in Hrun as [(flags & w2 & Hloop & Hexp) | (exn & Hloop & ->)].
  - apply parents_loop_tests in Hloop as (new2 & Ht2 & Hn2).
    cbn [trace labels] in Ht2, Hn2.
    assert (Hexp' : exists new3,
               trace w' = trace w2 ++ new3 /\ (tests_in new3 <= 1)%nat).
    { unfold explain, item, run_testRev, call, bind, ret, raise in Hexp.
      destruct (fst flags), (snd flags), (parents_of_output out !! 0%nat),
        (parents_of_output out !! 1%nat);
        try (inversion Hexp; subst; exists []; rewrite app_nil_r;
             split; [reflexivity | cbn; lia]).
      destruct (testRev _ (ext w2)) as [[exn | label] e3];
        inversion Hexp; subst; cbn [trace]; eexists;
        (split; [reflexivity | cbn; lia]). }
    destruct Hexp' as (new3 & Ht3 & Hn3).
    exists ([EvHg (parent_args blamedRev)] ++ new2 ++ new3).
    split; [rewrite Ht3, Ht2, <- !app_assoc; reflexivity |].
    rewrite !tests_in_app. cbn. lia.
  - apply parents_loop_tests in Hloop as (new2 & Ht2 & Hn2).
    cbn [trace labels] in Ht2, Hn2.
    exists ([EvHg (parent_args blamedRev)] ++ new2).
    split; [rewrite Ht2, <- !app_assoc; reflexivity |].
    rewrite !tests_in_app. cbn. lia.
Qed.

End MoreControllerFacts.

(** ** The start of a session *)

Section SetupFacts.

Import Session.

Context {E : Type} {collab : Collaborators E}.

Variable get_repo_hash : string -> M E Rev.










End SetupFacts.

(** ** A run of the external oracle *)

Section ExternalRunFacts.

Import ExternalOracle.

Variable mkdtemp_path : string -> FS -> string.

(** X19: a run of the external oracle that returns has called
    [interesting] once, with the argument prefix, the shell and the runtime
    parameters as arguments and with ["t"] inside the new directory as
    prefix for its files, after [init] if the script has one; the label is
    bad exactly when the answer was true; and outside the new directory the
    scratch space is as the script left it. *)
Theorem external_run options cs prefix shellFilename hgHash (fs : FS)
    label (fs' : FS) :
  inner mkdtemp_path options cs prefix shellFilename hgHash fs
    = (inr label, fs') ->
  let temp_dir := mkdtemp_path ("abExtTestAndLabel-" +:+ hgHash) fs in
  let conditionArgs := prefix ++ [shellFilename] ++ runtime_params options in
  exists (fs2 fs3 : FS) (answer : bool),
    match init cs with
    | Some init_fn => init_fn conditionArgs ({[temp_dir]} ∪ fs) = (inr tt, fs2)
    | None => fs2 = {[temp_dir]} ∪ fs
    end /\
    interesting cs conditionArgs (temp_dir +:+ "/t") fs2 = (inr answer, fs3) /\
    label = (if answer then (bad, "interesting")
             else (good, "not interesting")) /\
    forall p, within temp_dir p = false -> p ∈ fs' <-> p ∈ fs3.
Proof.
  unfold inner. intros H.
  apply bind_inv in H as [(d & fs1 & Hmk & H) | (e & _ & He)]; [| discriminate].
  unfold mkdtemp in Hmk. inversion Hmk; subst d fs1; clear Hmk.
  apply bind_inv in H as [([] & fs2 & Hinit & H) | (e & _ & He)];
    [| discriminate].
  apply bind_inv in H as [(b & fs3 & Hint & H) | (e & _ & He)];
    [| discriminate].
  apply bind_inv in H as [(isd & fs4 & Hd & H) | (e & _ & He)];
    [| discriminate].
  unfold is_dir in Hd. inversion Hd; subst isd fs4; clear Hd.
  apply bind_inv in H as [([] & fs5 & Hrm & H) | (e & _ & He)];
    [| discriminate].
  unfold ret in H. inversion H; subst. clear H.
  exists fs2, fs3, b. split; [| split; [exact Hint | split; [reflexivity |]]].
  - destruct (init cs) as [init_fn |]; [exact Hinit |].
    inversion Hinit; reflexivity.
  - intros p Hp. destruct (bool_decide _).
    + unfold rm_tree_incl_readonly in Hrm. inversion Hrm; subst.
      rewrite elem_of_filter. tauto.
    + inversion Hrm; subst. reflexivity.
Qed.

End ExternalRunFacts.

(** ** Reading the options *)

Lemma flags_of_app l1 l2 extraFlags :
  ParseOpts.flags_of (l1 ++ l2) extraFlags
  = ParseOpts.flags_of l2 (ParseOpts.flags_of l1 extraFlags).
Proof.
  revert extraFlags. induction l1 as [| a l1 IH]; intros extraFlags;
    [reflexivity |].
  cbn [app ParseOpts.flags_of]. apply IH.
Qed.

Lemma flags_of_none l extraFlags :
  Forall (fun b => String.prefix "--flags=" b = false) l ->
  ParseOpts.flags_of l extraFlags = extraFlags.
Proof.
  intros Hall. revert extraFlags.
  induction Hall as [| b l Hb _ IH]; intros extraFlags; [reflexivity |].
  cbn [ParseOpts.flags_of]. rewrite Hb. apply IH.
Qed.

Lemma last_item_some {A} (l : list A) x :
  ParseOpts.last_item l = inr x <-> exists front, l = front ++ [x].
Proof.
  unfold ParseOpts.last_item. split.
  - destruct l as [| a l] using rev_ind; [discriminate |].
    rewrite map_app. cbn [map]. rewrite last_last.
    intros H. inversion H; subst. eauto.
  - intros [front ->]. rewrite map_app. cbn [map]. rewrite last_last.
    reflexivity.
Qed.

Lemma last_item_nil {A} : ParseOpts.last_item (@nil A) = inl (ParseOpts.Raise IndexError).
Proof. reflexivity. Qed.

(** X20: the runtime parameters are the words of the [-p] text: none of
    them is empty or holds a space, however many spaces the text has, and
    words that are joined with single spaces are read back as they were. *)
Theorem parameters_are_words :
  (forall parameters, Forall word (ParseOpts.split_parameters parameters)) /\
  (forall l, Forall word l ->
             ParseOpts.split_parameters (String.concat " " l) = l).
Proof.
  split.
  - intros parameters. unfold ParseOpts.split_parameters.
    pose proof (split_no_sep SP parameters) as Hall.
    induction Hall as [| x l Hx _ IH]; cbn [List.filter]; [constructor |].
    destruct (String.eqb x "") eqn:Hempty; cbn [negb]; [exact IH |].
    constructor; [| exact IH]. split; [| exact Hx].
    intros ->. discriminate.
  - intros l Hall. unfold ParseOpts.split_parameters.
    destruct l as [| x l]; [reflexivity |].
    change " " with (String SP "").
    rewrite split_join; [| discriminate |].
    + induction Hall as [| y l' [Hy _] _ IH]; [reflexivity |].
      cbn [List.filter]. apply String.eqb_neq in Hy. rewrite Hy. cbn [negb].
      f_equal. exact IH.
    + eapply Forall_impl; [exact Hall |]. intros y [_ Hy]. exact Hy.
Qed.

(** X21: of the arguments of an external oracle, the last one that starts
    with [--flags=] gives the extra flags: the words after the [=]; with no
    such argument there are no extra flags. *)
Theorem last_flags_argument_wins before after :
  Forall (fun b => String.prefix "--flags=" b = false) after ->
  ParseOpts.flags_of after [] = [] /\
  forall a, String.prefix "--flags=" a = true ->
            ParseOpts.flags_of (before ++ a :: after) []
            = Py.split SP (ParseOpts.drop_chars 8 a).
Proof.
  intros Hall. split; [apply flags_of_none; exact Hall |].
  intros a Ha. rewrite flags_of_app. cbn [ParseOpts.flags_of].
  rewrite Ha. apply flags_of_none. exact Hall.
Qed.

Section ParseOptsFacts.

Import ParseOpts.

Variable BuildOptions : Type.
Variable parse_shell_opts : string -> Exn + BuildOptions.
Variable known_broken_ranges : BuildOptions -> Exn + list string.
Variable is_file : string -> bool.
Variable earliest_known_working_rev :
  BuildOptions -> list string -> string -> Exn + string.
Variable get_repo_hash : BuildOptions -> string -> Exn + string.
Variable runWithVg_of : BuildOptions -> bool.
Variable testBinary : string -> list string -> bool -> string * Z.
Variable mkdtemp_path : string -> gset string -> string.
Variable rel_or_abs_import : string -> ExternalOracle.ConditionScript.

Local Abbreviation parse :=
  (parseOpts BuildOptions parse_shell_opts known_broken_ranges is_file
     earliest_known_working_rev get_repo_hash runWithVg_of testBinary
     mkdtemp_path rel_or_abs_import).

(** X22: a branch name other than the default one is never accepted:
    whatever the other options and the arguments are, [parseOpts] does not
    return (with [-T] it exits, without it an earlier failure or the final
    exception ends it). *)
Theorem branch_name_never_accepted v args :
  nameOfTreeherderBranch v <> "mozilla-inbound" ->
  exists stop, parse v args = inl stop.
Proof.
  intros Hname. apply String.eqb_neq in Hname.
  unfold parseOpts, and_then.
  destruct (useTreeherderBinaries v); [eauto |].
  destruct (lift (parse_shell_opts _)) as [stop | bo]; [eauto |].
  destruct (lift (known_broken_ranges bo)) as [stop | ranges]; [eauto |].
  destruct (check_testcase _ _ _) as [stop | []]; [eauto |].
  destruct (negb (is_label _)); [eauto |].
  destruct (choose_oracle _ _ _ _ _ _ _ _ _) as [stop | [extraFlags oracle]];
    [eauto |].
  destruct (lift (earliest_known_working_rev _ _ _)) as [stop | q]; [eauto |].
  cbn [negb]. destruct (lift (get_repo_hash _ _)) as [stop | known]; [eauto |].
  rewrite Hname. cbn. eauto.
Qed.

(** X23: when the parameters do not hold ["-e 42"] and the build options
    are read, a testcase that is not a file ends [parseOpts] with an
    [AttributeError] (from the log line before the [raise OSError], which
    is never reached), and parameters without any word end it with an
    [IndexError]. *)
Theorem missing_testcase_error v args bo ranges :
  useTreeherderBinaries v = false ->
  parse_shell_opts (build_options v) = inr bo ->
  known_broken_ranges bo = inr ranges ->
  InternalOracle.found (parameters v) "-e 42" = false ->
  (split_parameters (parameters v) = [] ->
   parse v args = inl (Raise IndexError)) /\
  (forall front testcase,
      split_parameters (parameters v) = front ++ [testcase] ->
      is_file testcase = false ->
      parse v args = inl (Raise (OtherError "AttributeError"))).
Proof.
  intros HT Hbo Hranges Hfound.
  unfold parseOpts, and_then, check_testcase.
  rewrite HT, Hbo. cbn [lift]. rewrite Hranges. cbn [lift].
  rewrite Hfound. cbn [negb]. split.
  - intros ->. reflexivity.
  - intros front testcase -> Hfile.
    rewrite (proj2 (last_item_some _ _) (ex_intro _ front eq_refl)).
    cbn [and_then]. rewrite Hfile. reflexivity.
Qed.

(** X24: what the options that [parseOpts] returns guarantee: no [-T] and
    the default branch name; a compilation label among bad, good and skip;
    the runtime parameters are the words of [-p], and they hold ["-e 42"]
    or end with a testcase that is a file; the oracle is the external one
    over the arguments exactly when [-i] is given and there is an argument,
    and the internal one exactly when there is none; the start of the range
    is the one given, or else the earliest known working revision for the
    parameters and the extra flags. *)
Theorem parsed_options v args p :
  parse v args = inr p ->
  values _ p = v /\
  useTreeherderBinaries v = false /\
  nameOfTreeherderBranch v = "mozilla-inbound" /\
  is_label (compilationFailedLabel v) = true /\
  runtime_params _ p = split_parameters (parameters v) /\
  (InternalOracle.found (parameters v) "-e 42" = true \/
   exists front testcase,
     runtime_params _ p = front ++ [testcase] /\ is_file testcase = true) /\
  (if useInterestingnessTests v
   then exists name prefix,
       args = name :: prefix /\
       testAndLabel _ p
       = External (ExternalOracle.inner mkdtemp_path
                     (oracle_options _ runWithVg_of v
                        (parsed_build_options _ p) (runtime_params _ p))
                     (rel_or_abs_import name) prefix)
   else args = [] /\
        testAndLabel _ p
        = Internal (InternalOracle.internalTestAndLabel testBinary
                      (oracle_options _ runWithVg_of v
                         (parsed_build_options _ p) (runtime_params _ p)))) /\
  match startRepo v with
  | Some given => resolved_startRepo _ p = given
  | None =>
      exists query,
        earliest_known_working_rev (parsed_build_options _ p)
          (runtime_params _ p ++ flags_of args []) (skipRevs _ p)
        = inr query /\
        get_repo_hash (parsed_build_options _ p) query
        = inr (resolved_startRepo _ p)
  end.
Proof.
  intros Hp. unfold parseOpts, and_then in Hp.
  destruct (useTreeherderBinaries v) eqn:HT; [discriminate |].
  destruct (parse_shell_opts (build_options v)) as [exn | bo] eqn:Hbo;
    [discriminate |].
  cbn [lift] in Hp.
  destruct (known_broken_ranges bo) as [exn | ranges] eqn:Hranges;
    [discriminate |].
  cbn [lift] in Hp.
  destruct (check_testcase is_file v (split_parameters (parameters v)))
    as [stop | []] eqn:Hcheck; [discriminate |].
  destruct (is_label (compilationFailedLabel v)) eqn:Hlabel;
    [| discriminate]. cbn [negb] in Hp.
  destruct (choose_oracle BuildOptions runWithVg_of testBinary mkdtemp_path
              rel_or_abs_import v bo (split_parameters (parameters v)) args)
    as [stop | [extraFlags oracle]] eqn:Horacle; [discriminate |].
  destruct (earliest_known_working_rev bo
              (split_parameters (parameters v) ++ extraFlags)
              (String.concat " + " ranges))
    as [exn | query] eqn:Hquery; [discriminate |].
  cbn [lift] in Hp.
  destruct (get_repo_hash bo query) as [exn | known] eqn:Hknown;
    [discriminate |].
  cbn [lift] in Hp.
  destruct (String.eqb (nameOfTreeherderBranch v) "mozilla-inbound")
    eqn:Hname; [| discriminate]. cbn [negb andb] in Hp.
  inversion Hp; subst p. clear Hp.
  cbn [values parsed_build_options skipRevs runtime_params testAndLabel
       resolved_startRepo].
  apply String.eqb_eq in Hname.
  repeat (split; [reflexivity || assumption |]).
  split; [| split].
  - unfold check_testcase in Hcheck.
    destruct (InternalOracle.found _ _); [left; reflexivity | right].
    cbn [negb] in Hcheck. unfold and_then in Hcheck.
    destruct (last_item _) as [stop | testcase] eqn:Hlast; [discriminate |].
    apply last_item_some in Hlast as [front Hlast].
    exists front, testcase. split; [exact Hlast |].
    destruct (is_file testcase); [reflexivity | discriminate].
  - unfold choose_oracle in Horacle.
    destruct (useInterestingnessTests v).
    + destruct args as [| name prefix]; [discriminate |].
      cbn in Horacle. inversion Horacle; subst. eauto.
    + destruct args as [| name prefix]; [| discriminate].
      cbn in Horacle. inversion Horacle; subst. split; reflexivity.
  - assert (Hflags : extraFlags = flags_of args []).
    { unfold choose_oracle in Horacle.
      destruct (useInterestingnessTests v).
      - destruct args as [| name prefix]; [discriminate |].
        cbn [length Nat.ltb Nat.leb] in Horacle. unfold and_then in Horacle.
        destruct (lift _); [discriminate |]. inversion Horacle; reflexivity.
      - destruct args as [| name prefix]; [| discriminate].
        cbn in Horacle. inversion Horacle; reflexivity. }
    subst extraFlags.
    destruct (startRepo v) as [given |]; [reflexivity |].
    exists query. split; assumption.
Qed.

End ParseOptsFacts.

(** * The further properties on concrete inputs *)

Import Examples.

Lemma sanitizeCsetMsg_unchanged_witness :
  sanitizeCsetMsg summary_msg "/home/user/trees/mozilla-inbound"
  = summary_msg.
Proof.
  refine (sanitizeCsetMsg_unchanged summary_msg
            "/home/user/trees/mozilla-inbound" _ _); reflexivity.
Defined.

Lemma sanitize_line_drops_last_word_witness :
  (has SP author_line = false /\
   sanitize_line "/home/user/trees/mozilla-inbound" author_line = "") \/
  (exists word,
      has SP word = false /\
      author_line
      = sanitize_line "/home/user/trees/mozilla-inbound" author_line
        +:+ " " +:+ word).
Proof.
  refine (sanitize_line_drops_last_word "/home/user/trees/mozilla-inbound"
            author_line _ _ _); reflexivity.
Defined.

Lemma sanitize_line_links_changeset_witness :
  exists before node,
    has ":" node = false /\
    changeset_line = before +:+ ":" +:+ node /\
    sanitize_line "/home/user/trees/mozilla-central" changeset_line
    = "changeset:   https://hg.mozilla.org/mozilla-central/rev/" +:+ node.
Proof.
  refine (sanitize_line_links_changeset "/home/user/trees/mozilla-central"
            changeset_line _ _ _); reflexivity.
Defined.

Lemma default_good_exit_codes_witness :
  fst (InternalOracle.internalTestAndLabel crashing_shell plain_options
         "js" "abc") = good
  <-> -11 = 0 \/ 3 <= -11 <= 6.
Proof.
  refine (default_good_exit_codes crashing_shell plain_options "js" "abc"
            "Segmentation fault" (-11) _ _ _); reflexivity.
Defined.

Lemma filtered_bad_runs_witness :
  fst (InternalOracle.internalTestAndLabel rejecting_shell assertion_options
         "js" "abc") = bad
  <-> InternalOracle.found "usage: js [options] [[script] scriptArgs*]"
        (output assertion_options) = true \/
      7 <= 1 \/
      (1 <= 1 <= 2 /\
       InternalOracle.found "usage: js [options] [[script] scriptArgs*]"
         "usage: js [" = false /\
       InternalOracle.found "usage: js [options] [[script] scriptArgs*]"
         "Error: Short option followed by junk" = false /\
       InternalOracle.found "usage: js [options] [[script] scriptArgs*]"
         "Error: Invalid long option:" = false /\
       InternalOracle.found "usage: js [options] [[script] scriptArgs*]"
         "Error: Invalid short option:" = false).
Proof.
  refine (filtered_bad_runs rejecting_shell assertion_options "js" "abc"
            "usage: js [options] [[script] scriptArgs*]" 1 _ _ _).
  - reflexivity.
  - discriminate.
  - reflexivity.
Defined.

Lemma watched_bad_runs_witness :
  fst (InternalOracle.internalTestAndLabel crashing_shell watching_options
         "js" "abc") = bad
  <-> (InternalOracle.found "Segmentation fault" (output watching_options)
       = true /\ output watching_options <> "") \/
      -11 = 139 \/
      (-11 < 0 /\ 128 - -11 = 139).
Proof.
  refine (watched_bad_runs crashing_shell watching_options "js" "abc"
            "Segmentation fault" (-11) 139 _ _); reflexivity.
Defined.

Lemma bisectLabel_marks_once_witness :
  labels (mkWorld tt ∅ [EvHg (mark_args bad "m0")]) = labels empty_world /\
  trace (mkWorld tt ∅ [EvHg (mark_args bad "m0")])
  = trace empty_world ++ [EvHg (mark_args bad "m0")].
Proof.
  refine (bisectLabel_marks_once (collab := bisection_done) plain_options bad
            "m0" "s0" "e0" empty_world
            (Some first_bad, Some "4f4c01fb42c3", None, "s0", "e0")
            (mkWorld tt ∅ [EvHg (mark_args bad "m0")]) _).
  reflexivity.
Defined.

Lemma bisectLabel_first_found_witness :
  bisectLabel (collab := bisection_done) default_options bad "m0" "s0" "e0"
    empty_world
  = (inr (Some first_bad, hash_of_line changeset_line, None, "s0", "e0"),
     mkWorld tt ∅ [EvHg (mark_args bad "m0")]).
Proof.
  refine (proj1 (bisectLabel_first_found (collab := bisection_done)
                   default_options bad "m0" "s0" "e0" empty_world
                   found_answer tt first_bad _ _)
            changeset_line _); reflexivity.
Defined.

Lemma first_round_goes_to_start_witness :
  exists st',
    currRev st' = Some "s0" /\
    sRepo st' = "s0" /\ eRepo st' = "e0" /\
    testInitialRevs (options st') = false /\
    iterNum st' = 1 - 2 + 1.
Proof.
  eexists.
  refine (first_round_goes_to_start (collab := merge_history) "e0"
            (bad, "Unknown exit code 7")
            (loop_start default_options "s0" "e0" None) empty_world
            false _ _ _ _ _).
  - reflexivity.
  - reflexivity.
  - reflexivity.
Defined.

Lemma loop_labels_what_it_tests_witness :
  exists new,
    trace (mkWorld tt (<["4f4c01fb42c3" := (skip, "compilation failed")]> ∅)
             (skip_round "4f4c01fb42c3"))
    = trace empty_world ++ new /\
    (forall rev,
        In (EvTestRev rev) new ->
        labels (mkWorld tt
                  (<["4f4c01fb42c3" := (skip, "compilation failed")]> ∅)
                  (skip_round "4f4c01fb42c3")) !! rev <> None) /\
    (forall rev,
        labels empty_world !! rev <> None ->
        labels (mkWorld tt
                  (<["4f4c01fb42c3" := (skip, "compilation failed")]> ∅)
                  (skip_round "4f4c01fb42c3")) !! rev <> None).
Proof.
  refine (loop_labels_what_it_tests (collab := nothing_left) 21
            (loop_start plain_options "s0" "e0" (Some "4f4c01fb42c3"))
            empty_world _ _ _).
  reflexivity.
Defined.

Lemma session_ends_with_cleanup_witness :
  exists before,
    trace (snd (findBlamedCset_from (collab := nothing_left) 21 "s0" "e0"
                  (loop_start plain_options "s0" "e0" (Some "4f4c01fb42c3"))
                  empty_world))
    = before ++ [EvHg ["bisect"; "-U"; "-r"];
                 EvHg ["update"; "-C"; "-r"; "default"];
                 EvDestroyPyc].
Proof.
  refine (session_ends_with_cleanup (collab := nothing_left) 21 "s0" "e0"
            (loop_start plain_options "s0" "e0" (Some "4f4c01fb42c3"))
            empty_world _ _).
  vm_compute. reflexivity.
Defined.

Lemma failing_test_ends_session_witness :
  findBlamedCset_from (collab := broken_build) 21 "s0" "e0"
    (loop_start default_options "s0" "e0" None) empty_world
  = (inl (OtherError "CalledProcessError"),
     mkWorld tt (labels empty_world) (trace empty_world ++ [EvTestRev "e0"])).
Proof.
  refine (failing_test_ends_session (collab := broken_build) 20 "s0" "e0"
            (loop_start default_options "s0" "e0" None) empty_world "e0"
            (OtherError "CalledProcessError") tt _ _); reflexivity.
Defined.


(** A session with [-k] over collaborators that all answer: the working
    copy is reset, the endpoints are marked, and the session ends before its
    first test. *)
Example trusting_session_never_starts :
  Session.findBlamedCset (collab := nothing_builds) resolve 21
    trusting_session empty_world
  = (inl (OtherError "TypeError"),
     mkWorld tt
       (<["e0" := (bad, "assumed end rev is bad")]>
          (<["s0" := (good, "assumed start rev is good")]> ∅))
       [EvHg ["update"; "-C"; "default"];
        EvHg ["purge"; "--all"];
        EvHg ["bisect"; "-r"];
        EvHg ["bisect"; "--skip"; "4f4c01fb42c0::4f4c01fb42c1"];
        EvHg ["bisect"; "-U"; "-g"; "s0"];
        EvHg ["bisect"; "-U"; "-b"; "e0"]]).
Proof. reflexivity. Qed.

Lemma blame_check_without_merge_witness :
  checkBlameParents (collab := merge_history) "p1" first_bad "s0" "e0"
    world_at_blame
  = (inr NotAMerge,
     mkWorld tt (labels world_at_blame)
             (trace world_at_blame ++ [EvHg (parent_args "p1")])).
Proof.
  refine (blame_check_without_merge (collab := merge_history) "p1" first_bad
            "s0" "e0" world_at_blame "s0," tt _ _).
  - reflexivity.
  - vm_compute. lia.
Defined.

Lemma blame_check_labels_parents_witness :
  <["p2" := (bad, "Unknown exit code 7")]> labels_at_blame !! "p2" <> None.
Proof.
  refine (blame_check_labels_parents (collab := merge_history) "m0" first_bad
            "s0" "e0" world_at_blame "p1,p2," tt
            (MissedCommonAncestor "c0" (good, "Exit code 0"))
            (mkWorld tt
                     (<["p2" := (bad, "Unknown exit code 7")]> labels_at_blame)
                     [EvHg (parent_args "m0"); EvTestRev "p2"; EvTestRev "c0"])
            _ _ _ "p2" _).
  - reflexivity.
  - vm_compute. lia.
  - vm_compute. reflexivity.
  - apply list_elem_of_further, list_elem_of_here.
Defined.


Lemma blame_check_cost_witness :
  exists new,
    [EvHg (parent_args "m0"); EvTestRev "p2"; EvTestRev "c0"]
    = trace world_at_blame ++ new /\
    (tests_in new
     <= length (List.filter
                  (fun p => InternalOracle.is_None (labels_at_blame !! p))
                  (parents_of_output "p1,p2,")) + 1)%nat.
Proof.
  refine (blame_check_cost (collab := merge_history) "m0" first_bad
            "s0" "e0" world_at_blame "p1,p2," tt
            (inr (MissedCommonAncestor "c0" (good, "Exit code 0")))
            (mkWorld tt
               (<["p2" := (bad, "Unknown exit code 7")]> labels_at_blame)
               [EvHg (parent_args "m0"); EvTestRev "p2"; EvTestRev "c0"])
            _ _).
  - reflexivity.
  - vm_compute. reflexivity.
Defined.

Lemma external_run_witness :
  exists (fs2 fs3 : gset string) (answer : bool),
    ret tt ({[tmp_path "abExtTestAndLabel-abc" ∅]} ∪ ∅) = (inr tt, fs2) /\
    ret (S := gset string) true fs2 = (inr answer, fs3) /\
    (bad, "interesting")
    = (if answer then (bad, "interesting") else (good, "not interesting")) /\
    forall p,
      ExternalOracle.within (tmp_path "abExtTestAndLabel-abc" ∅) p = false ->
      p ∈ (∅ : gset string) <-> p ∈ fs3.
Proof.
  refine (external_run tmp_path plain_options (answering_script true)
            ["--fast"] "js" "abc" ∅ (bad, "interesting") ∅ _).
  vm_compute. reflexivity.
Defined.

Lemma last_flags_argument_wins_witness :
  ParseOpts.flags_of
    (["test.py"; "--flags=--no-ion"]
       ++ "--flags=--ion-eager --no-threads" :: ["--fast"]) []
  = Py.split SP (ParseOpts.drop_chars 8 "--flags=--ion-eager --no-threads").
Proof.
  refine (proj2 (last_flags_argument_wins ["test.py"; "--flags=--no-ion"]
                   ["--fast"] _)
            "--flags=--ion-eager --no-threads" _).
  - repeat constructor.
  - reflexivity.
Defined.

Lemma branch_name_never_accepted_witness :
  exists stop,
    parse (with_branch "mozilla-central" default_values) [] = inl stop.
Proof.
  refine (branch_name_never_accepted _ _ _ _ _ _ _ _ _ _
            (with_branch "mozilla-central" default_values) [] _).
  discriminate.
Defined.

Lemma missing_testcase_error_witness :
  parse (with_parameters "--ion-eager missing.js" default_values) []
  = inl (ParseOpts.Raise (OtherError "AttributeError")).
Proof.
  refine (proj2 (missing_testcase_error _ _ _ _ _ _ _ _ _ _
                   (with_parameters "--ion-eager missing.js" default_values)
                   [] "" ["4f4c01fb42c0::4f4c01fb42c1"] _ _ _ _)
            ["--ion-eager"] "missing.js" _ _); reflexivity.
Defined.

Lemma parsed_options_witness :
  exists p,
    parse (with_parameters "--ion-eager testcase.js" default_values) []
    = inr p /\
    ParseOpts.runtime_params _ p
    = ParseOpts.split_parameters "--ion-eager testcase.js".
Proof.
  eexists. split; [reflexivity |].
  refine (proj1 (proj2 (proj2 (proj2 (proj2
            (parsed_options string
               (fun text => inr text)
               (fun _ => inr ["4f4c01fb42c0::4f4c01fb42c1"])
               (fun name => String.eqb name "testcase.js")
               (fun _ _ _ => inr "c0")
               (fun _ query => inr query)
               (fun _ => false)
               crashing_shell tmp_path (fun _ => answering_script true)
               (with_parameters "--ion-eager testcase.js" default_values)
               [] _ _)))))).
  reflexivity.
Defined.
